(** * react-native-set-version: the version model of [versionUtils.js]

    A shallow embedding of the five functions of [versionUtils.js]
    ([trimText], [versionEquals], [versionStringToVersion],
    [updateVersionBuild], [versionToVersionCode]) together with the part of
    the ECMAScript semantics they run on: Number comparison and addition,
    [Number.prototype.toString], the string-to-number coercion of unary [+],
    [String.prototype.search], [substring], [split] and [padStart].

    Conventions of the model.
    - A JavaScript string is a [string]: a sequence of code units, here the
      code units below 256.
    - A JavaScript Number is a [number]: [NaN], the two infinities, or a
      finite value [Fin m e] standing for the decimal [m * 10^e]. The
      Numbers of a run are the binary64 values ([is_binary64]): a numeric
      literal and a sum are rounded to the nearest one, ties to even, with
      overflow to an infinity and underflow to 0 ([round64]). Comparison is
      exact, as it is on binary64 values. [-0] is identified with [0], from
      which no operation used here can tell it apart.
    - [toString] writes the shortest decimal that reads back as the
      Number, as [Number.prototype.toString] does.
    - A call that may throw returns a [completion]. *)

From Stdlib Require Import ZArith List Bool Lia.
From Stdlib Require Import Strings.Ascii Strings.String.
Import ListNotations.

Local Open Scope string_scope.
Local Open Scope Z_scope.

(** ** JavaScript values and operators *)

Module JS.

(** *** Numbers *)

Inductive number : Type :=
| NaN
| Infinity (negative : bool)
| Fin (m e : Z).

(** The Number whose value is the integer [z]. *)
Definition Int (z : Z) : number := Fin z 0.

(** [m * 10^e] written with the smaller exponent [e0 <= e]. *)
Definition scale (m e e0 : Z) : Z := m * 10 ^ (e - e0).

(** The comparison behind [<], [>=] and [===]: [None] when an operand is
    [NaN] (the "undefined" outcome of IsLessThan). *)
Definition compare (x y : number) : option comparison :=
  match x, y with
  | NaN, _ | _, NaN => None
  | Infinity sx, Infinity sy =>
      Some (if sx then (if sy then Eq else Lt) else (if sy then Gt else Eq))
  | Infinity sx, Fin _ _ => Some (if sx then Lt else Gt)
  | Fin _ _, Infinity sy => Some (if sy then Gt else Lt)
  | Fin m1 e1, Fin m2 e2 =>
      let e0 := Z.min e1 e2 in
      Some (Z.compare (scale m1 e1 e0) (scale m2 e2 e0))
  end.

(** [x === y] on Numbers. *)
Definition strict_eq (x y : number) : bool :=
  match compare x y with Some Eq => true | _ => false end.

(** [x < y]. *)
Definition lt (x y : number) : bool :=
  match compare x y with Some Lt => true | _ => false end.

(** [x >= y]: false when [x < y] is true or undefined. *)
Definition ge (x y : number) : bool :=
  match compare x y with Some Lt | None => false | Some _ => true end.

(** *** Rounding to binary64

    A Number is a binary64 value: [n * 2^(s - 1074)] with [0 <= s <= 2045]
    and [n < 2^53]. [round64 m e] is the Number that the exact decimal
    [m * 10^e] denotes: the nearest binary64 value, a tie going to the even
    mantissa, and an infinity from [2^1024] on. *)

(** The quotient [num / den] rounded to the nearest integer, a tie going to
    the even one. *)
Definition rne_div (num den : Z) : Z :=
  let fl := num / den in
  let rem := num mod den in
  if (den <? 2 * rem) || ((den =? 2 * rem) && Z.odd fl) then fl + 1 else fl.

(** For a magnitude of [t] units of [2^-1074], rounded down, the unit in the
    last place is [2^s] such units: 53 significant bits, and the subnormals
    at [s = 0]. *)
Definition ulp_exponent (t : Z) : Z := Z.max 0 (Z.log2 t - 52).

(** The magnitude [X / U] units of [2^-1074] rounded to [n * 2^s] units. *)
Definition round_magnitude (X U : Z) : Z * Z :=
  let s := ulp_exponent (X / U) in
  (rne_div X (2 ^ s * U), s).

(** [n * 2^(s - 1074)], negated when [negative], as a decimal. *)
Definition spell (negative : bool) (n s : Z) : number :=
  let v := if negative then - n else n in
  if 1074 <=? s then Fin (v * 2 ^ (s - 1074)) 0
  else Fin (v * 5 ^ (1074 - s)) (s - 1074).

(** The magnitude of [m * 10^e] as a fraction [X / U] of units of
    [2^-1074]. *)
Definition units (m e : Z) : Z * Z :=
  (Z.abs m * 10 ^ Z.max e 0 * 2 ^ 1074, 10 ^ Z.max (- e) 0).

(** A decimal that is a binary64 value keeps its spelling. *)
Definition round64 (m e : Z) : number :=
  let (X, U) := units m e in
  let (n, s) := round_magnitude X U in
  if 2 ^ 2098 <=? n * 2 ^ s then Infinity (m <? 0)
  else if X =? n * (2 ^ s * U) then Fin m e
  else spell (m <? 0) n s.

(** Whether [m * 10^e] is a binary64 value. *)
Definition exact64 (m e : Z) : bool :=
  let (X, U) := units m e in
  let (n, s) := round_magnitude X U in
  (n * 2 ^ s <? 2 ^ 2098) && (X =? n * (2 ^ s * U)).

(** Whether [x] is a value a Number can take. The decimals that are not
    never occur at run time: every Number comes out of [round64], whose
    results are such values. *)
Definition is_binary64 (x : number) : bool :=
  match x with
  | Fin m e => exact64 m e
  | _ => true
  end.

(** [round64] with the far ends of the exponent range cut short: a decimal
    of at least [2^1025] is an infinity and one below [2^-1077] is 0,
    without the power of ten being computed. *)
Definition to_number (m e : Z) : number :=
  if m =? 0 then Fin 0 0
  else
    let l := Z.log2 (Z.abs m) in
    if (0 <? e) && (1025 <=? l + 3 * e) then Infinity (m <? 0)
    else if (e <? 0) && (l + 1 + 3 * e <? -1076) then Fin 0 0
    else round64 m e.

(** [x + y] on Numbers: the exact sum rounded to binary64. On decimals that
    are not binary64 values, which the program cannot hold, the sum is left
    exact. *)
Definition add (x y : number) : number :=
  match x, y with
  | NaN, _ | _, NaN => NaN
  | Infinity sx, Infinity sy => if Bool.eqb sx sy then Infinity sx else NaN
  | Infinity sx, Fin _ _ => Infinity sx
  | Fin _ _, Infinity sy => Infinity sy
  | Fin m1 e1, Fin m2 e2 =>
      let e0 := Z.min e1 e2 in
      let sum := scale m1 e1 e0 + scale m2 e2 e0 in
      if is_binary64 x && is_binary64 y then round64 sum e0 else Fin sum e0
  end.

Definition is_NaN (x : number) : bool :=
  match x with NaN => true | _ => false end.

(** *** Completions *)

Inductive exn : Type :=
| TypeError
| Error (message : string).

Inductive completion (A : Type) : Type :=
| Return (a : A)
| Throw (e : exn).

Arguments Return {A} a.
Arguments Throw {A} e.

Definition bind {A B : Type} (c : completion A) (k : A -> completion B)
  : completion B :=
  match c with
  | Return a => k a
  | Throw e => Throw e
  end.

(** Reading a property of [o]: a [TypeError] when [o] is [null]. *)
Definition deref {A : Type} (o : option A) : completion A :=
  match o with
  | Some a => Return a
  | None => Throw TypeError
  end.

(** *** Strings *)

Definition code (c : ascii) : Z := Z.of_N (N_of_ascii c).

(** [\d]: the ten ASCII decimal digits. *)
Definition is_digit (c : ascii) : bool := (48 <=? code c) && (code c <=? 57).

(** StrWhiteSpaceChar among the code units below 256: TAB, LF, VT, FF, CR,
    SP and NBSP. *)
Definition is_whitespace (c : ascii) : bool :=
  ((9 <=? code c) && (code c <=? 13)) || (code c =? 32) || (code c =? 160).

Definition is_empty (s : string) : bool :=
  match s with EmptyString => true | String _ _ => false end.

(** [s.search(/[^\d]/)]: the index of the first code unit that is not a
    decimal digit, [-1] when there is none. *)
Fixpoint search_non_digit (s : string) : Z :=
  match s with
  | EmptyString => -1
  | String c r =>
      if is_digit c then
        (let i := search_non_digit r in if i <? 0 then -1 else i + 1)
      else 0
  end.

(** [s.substring(0, n)] for [0 <= n]. *)
Definition substring0 (n : Z) (s : string) : string :=
  String.substring 0 (Z.to_nat n) s.

(** [s.split(sep)] for a separator of one code unit: never the empty
    array, [""] splits into one empty string. *)
Fixpoint split (sep : ascii) (s : string) : list string :=
  match s with
  | EmptyString => [EmptyString]
  | String c r =>
      if Ascii.eqb c sep then EmptyString :: split sep r
      else match split sep r with
           | h :: t => String c h :: t
           | [] => [String c EmptyString]
           end
  end.

(** [parts[i] || d]: [d] when the element is [undefined] or the empty
    string, the two falsy cases of an array of strings. *)
Definition or_default (x : option string) (d : string) : string :=
  match x with
  | Some (String _ _ as s) => s
  | _ => d
  end.

(** [n] code units taken cyclically from [fill], starting at [cur]. *)
Fixpoint repeat_fill (n : nat) (fill cur : string) : string :=
  match n with
  | O => EmptyString
  | S n' =>
      match cur with
      | String c r => String c (repeat_fill n' fill r)
      | EmptyString =>
          match fill with
          | String c r => String c (repeat_fill n' fill r)
          | EmptyString => EmptyString
          end
      end
  end.

(** [s.padStart(maxLength, fillString)]. *)
Definition padStart (s : string) (maxLength : nat) (fillString : string)
  : string :=
  let stringLength := String.length s in
  if (maxLength <=? stringLength)%nat then s
  else if is_empty fillString then s
  else repeat_fill (maxLength - stringLength) fillString fillString ++ s.

(** *** Decimal digits *)

Definition digit_char (d : Z) : ascii := ascii_of_N (Z.to_N (48 + d)).

Fixpoint digits_aux (fuel : nat) (n : Z) (acc : string) : string :=
  match fuel with
  | O => acc
  | S fuel' =>
      let acc' := String (digit_char (n mod 10)) acc in
      if n <? 10 then acc' else digits_aux fuel' (n / 10) acc'
  end.

(** The decimal digits of [n >= 0], most significant first, without leading
    zeros ("0" for 0). *)
Definition digits_of (n : Z) : string :=
  digits_aux (S (Z.to_nat (Z.log2 n))) n EmptyString.

Fixpoint zeros (n : nat) : string :=
  match n with
  | O => EmptyString
  | S n' => String "0" (zeros n')
  end.

(** [s] without its trailing ["0"] characters. *)
Fixpoint strip_trailing_zeros (s : string) : string :=
  match s with
  | EmptyString => EmptyString
  | String c r =>
      let r' := strip_trailing_zeros r in
      if Ascii.eqb c "0" && is_empty r' then EmptyString else String c r'
  end.

Definition take (n : nat) (s : string) : string := String.substring 0 n s.
Definition drop (n : nat) (s : string) : string :=
  String.substring n (String.length s - n) s.

(** *** Number.prototype.toString (radix 10)

    Number::toString(x) for [0 < x] takes integers [n], [k] and [s] such
    that [s] has [k] digits, [s * 10^(n - k)] denotes [x], and [k] is as
    small as possible; of several such [s] the one for which
    [s * 10^(n - k)] is closest to [x], and the even one of two. *)

(** Whether the decimal [m' * 10^e'] denotes the Number [m * 10^e]. *)
Definition reads_as (m' e' m e : Z) : bool :=
  strict_eq (round64 m' e') (Fin m e).

(** The decimal of [k] digits for [m * 10^e], [0 < m], when there is one
    and [m] has further digits that are not all zero: [m] without its last
    [d] digits, or that plus one. *)
Definition candidate (m e k : Z) : option (Z * Z) :=
  let d := Z.of_nat (String.length (digits_of m)) - k in
  let lo := m / 10 ^ d in
  let r := m mod 10 ^ d in
  if (d <=? 0) || (r =? 0) then None
  else
    let lo_reads := reads_as lo (e + d) m e in
    let hi_reads := reads_as (lo + 1) (e + d) m e in
    let lo_closer := (2 * r <? 10 ^ d) || ((2 * r =? 10 ^ d) && Z.even lo) in
    if lo_reads && (lo_closer || negb hi_reads) then Some (lo, e + d)
    else if hi_reads then Some (lo + 1, e + d)
    else None.

(** The first candidate from [k] digits on, and [m * 10^e] itself when
    there is none. *)
Fixpoint shortest_from (fuel : nat) (k m e : Z) : Z * Z :=
  match fuel with
  | O => (m, e)
  | S fuel' =>
      match candidate m e k with
      | Some c => c
      | None => shortest_from fuel' (k + 1) m e
      end
  end.

(** A Number is denoted by a decimal of at most 17 digits. *)
Definition shortest (m e : Z) : Z * Z := shortest_from 17 1 m e.

(** The text for the digits [m] and the exponent [e]: with [s] the digits of
    [m] without trailing zeros, [k] of them, and [n] such that
    [m * 10^e = s * 10^(n - k)]. *)
Definition toString_pos (m e : Z) : string :=
  let all := digits_of m in
  let s := strip_trailing_zeros all in
  let k := Z.of_nat (String.length s) in
  let n := Z.of_nat (String.length all) + e in
  if (k <=? n) && (n <=? 21) then s ++ zeros (Z.to_nat (n - k))
  else if (0 <? n) && (n <=? 21) then
    take (Z.to_nat n) s ++ "." ++ drop (Z.to_nat n) s
  else if (-6 <? n) && (n <=? 0) then "0." ++ zeros (Z.to_nat (- n)) ++ s
  else
    let x := n - 1 in
    let sign := if x <? 0 then "-" else "+" in
    if k =? 1 then s ++ "e" ++ sign ++ digits_of (Z.abs x)
    else take 1 s ++ "." ++ drop 1 s ++ "e" ++ sign ++ digits_of (Z.abs x).

Definition toString_abs (m e : Z) : string :=
  let (m', e') := shortest m e in toString_pos m' e'.

Definition toString (x : number) : string :=
  match x with
  | NaN => "NaN"
  | Infinity false => "Infinity"
  | Infinity true => "-Infinity"
  | Fin m e =>
      if m =? 0 then "0"
      else if m <? 0 then "-" ++ toString_abs (- m) e
      else toString_abs m e
  end.

(** *** StringToNumber: the coercion of unary [+] on a string *)

Fixpoint trim_start (s : string) : string :=
  match s with
  | String c r => if is_whitespace c then trim_start r else s
  | EmptyString => EmptyString
  end.

Fixpoint trim_end (s : string) : string :=
  match s with
  | EmptyString => EmptyString
  | String c r =>
      let r' := trim_end r in
      if is_whitespace c && is_empty r' then EmptyString else String c r'
  end.

Definition trim (s : string) : string := trim_end (trim_start s).

(** The value of a digit in a radix up to 16: [16] for any other code unit. *)
Definition digit_value (c : ascii) : Z :=
  let n := code c in
  if (48 <=? n) && (n <=? 57) then n - 48
  else if (97 <=? n) && (n <=? 102) then n - 87
  else if (65 <=? n) && (n <=? 70) then n - 55
  else 16.

Fixpoint all_digits (radix : Z) (s : string) : bool :=
  match s with
  | EmptyString => true
  | String c r => (digit_value c <? radix) && all_digits radix r
  end.

(** The value of the digit string [s] in [radix], continuing from [acc]. *)
Fixpoint value_from (radix acc : Z) (s : string) : Z :=
  match s with
  | EmptyString => acc
  | String c r => value_from radix (acc * radix + digit_value c) r
  end.

Definition decimal_value (s : string) : Z := value_from 10 0 s.

(** The longest prefix of decimal digits, and what follows it. *)
Fixpoint span_digits (s : string) : string * string :=
  match s with
  | EmptyString => (EmptyString, EmptyString)
  | String c r =>
      if is_digit c then (let (d, t) := span_digits r in (String c d, t))
      else (EmptyString, s)
  end.

(** NonDecimalIntegerLiteral: [0b], [0o] or [0x] (either case) followed by
    at least one digit of that radix. *)
Definition radix_of_prefix (c : ascii) : option Z :=
  if Ascii.eqb c "b" || Ascii.eqb c "B" then Some 2
  else if Ascii.eqb c "o" || Ascii.eqb c "O" then Some 8
  else if Ascii.eqb c "x" || Ascii.eqb c "X" then Some 16
  else None.

Definition parse_non_decimal (s : string) : option number :=
  match s with
  | String z (String p r) =>
      match radix_of_prefix p with
      | Some radix =>
          if Ascii.eqb z "0" && negb (is_empty r) && all_digits radix r
          then Some (to_number (value_from radix 0 r) 0)
          else None
      | None => None
      end
  | _ => None
  end.

(** An optional sign: whether it is [-], and what follows it. *)
Definition split_sign (s : string) : bool * string :=
  match s with
  | String c r =>
      if Ascii.eqb c "+" then (false, r)
      else if Ascii.eqb c "-" then (true, r)
      else (false, s)
  | EmptyString => (false, s)
  end.

(** ExponentPart_opt at the end of the literal: the exponent, [None] when
    the text is neither empty nor an exponent part. *)
Definition parse_exponent (s : string) : option Z :=
  match s with
  | EmptyString => Some 0
  | String c r =>
      if Ascii.eqb c "e" || Ascii.eqb c "E" then
        (let (negative, r') := split_sign r in
         let (d, rest) := span_digits r' in
         if negb (is_empty d) && is_empty rest
         then Some (if negative then - decimal_value d else decimal_value d)
         else None)
      else None
  end.

(** Whether [s] begins with the code unit [c]. *)
Definition starts_with (c : ascii) (s : string) : bool :=
  match s with
  | String c' _ => Ascii.eqb c' c
  | EmptyString => false
  end.

Definition tail (s : string) : string :=
  match s with
  | String _ r => r
  | EmptyString => EmptyString
  end.

(** StrUnsignedDecimalLiteral other than [Infinity]: digits, an optional
    dot and more digits (one of the two runs of digits may be empty), an
    optional exponent part. The result is the mantissa and the decimal
    exponent. *)
Definition parse_unsigned_decimal (s : string) : option (Z * Z) :=
  let (ip, r1) := span_digits s in
  if starts_with "." r1 then
    (let (fp, r3) := span_digits (tail r1) in
     if is_empty ip && is_empty fp then None
     else match parse_exponent r3 with
          | Some x =>
              Some (decimal_value (ip ++ fp), x - Z.of_nat (String.length fp))
          | None => None
          end)
  else
    if is_empty ip then None
    else match parse_exponent r1 with
         | Some x => Some (decimal_value ip, x)
         | None => None
         end.

(** StrDecimalLiteral. *)
Definition parse_decimal_literal (s : string) : number :=
  let (negative, u) := split_sign s in
  if String.eqb u "Infinity" then Infinity negative
  else match parse_unsigned_decimal u with
       | Some (m, e) => to_number (if negative then - m else m) e
       | None => NaN
       end.

Definition StringToNumber (s : string) : number :=
  let t := trim s in
  if is_empty t then Int 0
  else match parse_non_decimal t with
       | Some n => n
       | None => parse_decimal_literal t
       end.

End JS.

Notation "x <- c ;; k" := (JS.bind c (fun x => k))
  (at level 61, c at next level, right associativity).

Import JS.

(** ** versionUtils.js *)

(** The version descriptor [{major, minor, patch, build}]. *)
Record Version : Type := mkVersion {
  major : number;
  minor : number;
  patch : number;
  build : number
}.

(** [{...v, build: b}]. *)
Definition with_build (v : Version) (b : number) : Version :=
  {| major := major v; minor := minor v; patch := patch v; build := b |}.

Definition trimText (s : string) : string :=
  let indexOfString := search_non_digit s in
  if 0 <? indexOfString then substring0 indexOfString s else s.

(** [versionA] is the only argument the callers may pass as [null]; its
    [major] is the first property read. *)
Definition versionEquals (versionA : option Version) (versionB : Version)
  : completion bool :=
  a <- deref versionA ;;
  Return (strict_eq (major a) (major versionB)
          && strict_eq (minor a) (minor versionB)
          && strict_eq (patch a) (patch versionB)).

Definition versionStringToVersion (versionString : string) : Version :=
  let versionParts := split "." versionString in
  {| major := StringToNumber (trimText (or_default (nth_error versionParts 0) "0"));
     minor := StringToNumber (trimText (or_default (nth_error versionParts 1) "1"));
     patch := StringToNumber (trimText (or_default (nth_error versionParts 2) "0"));
     build := StringToNumber (trimText (or_default (nth_error versionParts 3) "1")) |}.

Definition build_limit_message : string :=
  "Sorry you have more than 100 builds using that version consider bumping version or change your version manually".

(** The parameter [maxBuilds = 100]: the argument is [None] when the caller
    leaves it out. *)
Definition effective_maxBuilds (maxBuilds : option number) : number :=
  match maxBuilds with
  | Some n => n
  | None => Int 100
  end.

Definition updateVersionBuild (currentVersion : option Version)
  (newVersion : Version) (maxBuilds : option number) : completion Version :=
  let maxBuilds := effective_maxBuilds maxBuilds in
  same <- versionEquals currentVersion newVersion ;;
  lower <- (if same
            then (cur <- deref currentVersion ;;
                  Return (lt (build newVersion) (build cur)))
            else Return false) ;;
  if lower then
    cur <- deref currentVersion ;;
    let newBuildNumber := add (build cur) (Int 1) in
    if ge newBuildNumber maxBuilds then Throw (Error build_limit_message)
    else Return (with_build newVersion newBuildNumber)
  else Return newVersion.

Definition versionToVersionCode (version : Version) : number :=
  let major := padStart (toString (major version)) 2 (toString (Int 0)) in
  let minor := padStart (toString (minor version)) 2 (toString (Int 0)) in
  let patch := padStart (toString (patch version)) 2 (toString (Int 0)) in
  let build := padStart (toString (build version)) 2 (toString (Int 0)) in
  StringToNumber (major ++ minor ++ patch ++ build).

(** A descriptor with integer fields. *)
Definition version_of (a b c d : Z) : Version :=
  mkVersion (Int a) (Int b) (Int c) (Int d).

(** The field at a token position: 0 major, 1 minor, 2 patch, 3 build. *)
Definition field (i : nat) (v : Version) : number :=
  match i with
  | O => major v
  | 1%nat => minor v
  | 2%nat => patch v
  | _ => build v
  end.

(** The default literal of a token position. *)
Definition default_token (i : nat) : string :=
  match i with
  | O => "0"
  | 1%nat => "1"
  | 2%nat => "0"
  | _ => "1"
  end.

(** The default value of a token position. *)
Definition default_value (i : nat) : Z :=
  match i with
  | O => 0
  | 1%nat => 1
  | 2%nat => 0
  | _ => 1
  end.

(** *** The encoder in the words of the specification

    "Format major, minor, patch, build each as a 2-digit, zero-left-padded
    decimal string (padding only widens, never narrows); concatenate the
    four padded strings in order and parse the result back into an
    integer." *)

(** A decimal string left-padded with zeros to at least two digits. *)
Definition pad2 (s : string) : string := zeros (2 - String.length s) ++ s.

(** The four fields written in decimal and padded, in order. *)
Definition padded_text (a b c d : Z) : string :=
  pad2 (digits_of a) ++ pad2 (digits_of b)
  ++ pad2 (digits_of c) ++ pad2 (digits_of d).

Definition spec_encode (a b c d : Z) : Z :=
  decimal_value (padded_text a b c d).

(** The lexicographic order on [(major, minor, patch, build)]. *)
Definition lex_lt (a b c d a' b' c' d' : Z) : Prop :=
  a < a' \/ (a = a' /\ (b < b' \/ (b = b' /\ (c < c' \/ (c = c' /\ d < d'))))).

(** Whether a token begins with a character that may begin a numeric
    literal without being a digit: white space, a sign, or the [I] of
    [Infinity]. *)
Definition numeric_lead (token : string) : bool :=
  match token with
  | String c _ =>
      is_whitespace c || Ascii.eqb c "+" || Ascii.eqb c "-" || Ascii.eqb c "I"
  | EmptyString => false
  end.

Fixpoint contains (c : ascii) (s : string) : bool :=
  match s with
  | EmptyString => false
  | String c' r => Ascii.eqb c' c || contains c r
  end.

(** ** index.js: what the command does with the version model *)

(** The template
    [`${version.major}.${version.minor}.${version.patch}.${version.build}`]:
    [bundleVersion] in [setIOSApplicationVersion], [versionName] in
    [setAndroidApplicationVersion]. *)
Definition bundleVersion (version : Version) : string :=
  toString (major version) ++ "." ++ toString (minor version) ++ "."
  ++ toString (patch version) ++ "." ++ toString (build version).

(** The [version] of [getIOSVersionInfo]: the parse of the plist's
    [CFBundleVersion], or [null] when the [try] block threw. The argument
    is [None] when the file could not be read or holds no string there. *)
Definition getIOSVersionInfo (CFBundleVersion : option string)
  : option Version :=
  match CFBundleVersion with
  | Some text => Some (versionStringToVersion text)
  | None => None
  end.

(** [updateIOSApplicationVersion] up to the file accesses: from the version
    [getIOSVersionInfo] returned, the [bundleVersion] that
    [setIOSApplicationVersion] computes for the plist. *)
Definition updateIOSApplicationVersion (currentVersion : option Version)
  (versionString : string) : completion string :=
  version <- updateVersionBuild currentVersion
               (versionStringToVersion versionString) None ;;
  Return (bundleVersion version).

(** [updateAndroidApplicationVersion] up to the file accesses: the
    [versionName] and the [versionCode] that [setAndroidApplicationVersion]
    writes. *)
Definition updateAndroidApplicationVersion (currentVersion : option Version)
  (versionString : string) : completion (string * number) :=
  newVersion <- updateVersionBuild currentVersion
                  (versionStringToVersion versionString) None ;;
  Return (bundleVersion newVersion, versionToVersionCode newVersion).

(** [k] runs in a row of [updateIOSApplicationVersion] with one version
    string, each run reading the [CFBundleVersion] that the run before
    wrote; a run that throws ends the series. *)
Fixpoint rerunIOS (k : nat) (versionString CFBundleVersion : string)
  : completion string :=
  match k with
  | O => Return CFBundleVersion
  | S k' =>
      written <- updateIOSApplicationVersion
                   (getIOSVersionInfo (Some CFBundleVersion)) versionString ;;
      rerunIOS k' versionString written
  end.

(** Every field is a number of the program: a binary64 value. *)
Definition binary64_fields (v : Version) : bool :=
  is_binary64 (major v) && is_binary64 (minor v)
  && is_binary64 (patch v) && is_binary64 (build v).

(** Whether one of the four fields is [NaN]. *)
Definition has_NaN (v : Version) : bool :=
  is_NaN (major v) || is_NaN (minor v) || is_NaN (patch v)
  || is_NaN (build v).

(** The three conditions of [versionEquals] on two descriptors. *)
Definition same_semantic_version (a b : Version) : bool :=
  strict_eq (major a) (major b)
  && strict_eq (minor a) (minor b)
  && strict_eq (patch a) (patch b).

(** Closes a comparison of integers, as a proposition or as a test. *)
Ltac solve_cmp :=
  first [ reflexivity | discriminate | lia
        | apply Z.ltb_lt; lia | apply Z.ltb_ge; lia
        | apply Z.leb_le; lia | apply Z.leb_gt; lia ].

(** ** Numbers: order and addition *)

Section NumberFacts.

Lemma pow10_pos (k : Z) : 0 <= k -> 0 < 10 ^ k.
Proof. intros Hk. apply Z.pow_pos_nonneg; lia. Qed.

(** Rescaling to a smaller exponent multiplies by a positive power of ten. *)
Lemma scale_rebase (m e e0 E : Z) :
  E <= e0 -> e0 <= e -> scale m e E = scale m e e0 * 10 ^ (e0 - E).
Proof.
  intros H1 H2. unfold scale.
  replace (e - E) with ((e - e0) + (e0 - E)) by lia.
  rewrite Z.pow_add_r by lia. ring.
Qed.

(** Two finite numbers may be compared at any exponent below both. *)
Lemma compare_Fin_at (m1 e1 m2 e2 E : Z) :
  E <= e1 -> E <= e2 ->
  compare (Fin m1 e1) (Fin m2 e2) = Some (scale m1 e1 E ?= scale m2 e2 E).
Proof.
  intros H1 H2. cbn [compare]. f_equal.
  set (e0 := Z.min e1 e2).
  rewrite (scale_rebase m1 e1 e0 E), (scale_rebase m2 e2 e0 E)
    by (subst e0; lia).
  apply Zmult_compare_compat_r.
  apply Z.lt_gt, pow10_pos. subst e0. lia.
Qed.

Lemma compare_Int (a b : Z) : compare (Int a) (Int b) = Some (a ?= b).
Proof.
  unfold Int. rewrite (compare_Fin_at a 0 b 0 0) by lia.
  unfold scale. cbn. now rewrite !Z.mul_1_r.
Qed.

Lemma lt_Int (a b : Z) : lt (Int a) (Int b) = (a <? b).
Proof. unfold lt. rewrite compare_Int. unfold Z.ltb. now destruct (a ?= b). Qed.

Lemma ge_Int (a b : Z) : ge (Int a) (Int b) = (b <=? a).
Proof.
  unfold ge. rewrite compare_Int. unfold Z.leb.
  rewrite (Z.compare_antisym a b). now destruct (a ?= b).
Qed.

Lemma strict_eq_Int (a b : Z) : strict_eq (Int a) (Int b) = (a =? b).
Proof.
  unfold strict_eq. rewrite compare_Int.
  destruct (Z.eqb_spec a b) as [->|Hne].
  - now rewrite Z.compare_refl.
  - destruct (a ?= b) eqn:Hc; try reflexivity.
    now apply Z.compare_eq_iff in Hc.
Qed.

Lemma lt_not_ge (x y : number) : lt x y = true -> ge x y = false.
Proof. unfold lt, ge. now destruct (compare x y) as [[]|]. Qed.

Lemma ge_not_lt (x y : number) : ge x y = true -> lt x y = false.
Proof. unfold lt, ge. now destruct (compare x y) as [[]|]. Qed.

Lemma ge_refl (x : number) : is_NaN x = false -> ge x x = true.
Proof.
  destruct x as [|[]|m e]; cbn; try easy.
  intros _. unfold ge. cbn [compare]. now rewrite Z.compare_refl.
Qed.

End NumberFacts.

(** ** Rounding to binary64 *)

Section Rounding.

Lemma rne_div_floor (num den : Z) :
  num / den <= rne_div num den <= num / den + 1.
Proof. unfold rne_div. destruct (_ || _); lia. Qed.

(** Rounding does not cross a multiple of the divisor. *)
Lemma rne_div_ge (num den k : Z) :
  0 < den -> k * den <= num -> k <= rne_div num den.
Proof.
  intros Hden Hk. pose proof (rne_div_floor num den).
  assert (k <= num / den) by (apply Z.div_le_lower_bound; lia). lia.
Qed.

Lemma rne_div_le (num den k : Z) :
  0 < den -> num <= k * den -> rne_div num den <= k.
Proof.
  intros Hden Hk. unfold rne_div.
  assert (Hfl : num / den <= k) by (apply Z.div_le_upper_bound; lia).
  pose proof (Z.div_mod num den ltac:(lia)) as Hdm.
  pose proof (Z.mod_pos_bound num den Hden) as Hrem.
  destruct (Z.eq_dec (num / den) k) as [Heq|Hne].
  - assert (Hzero : num mod den = 0) by nia.
    rewrite Hzero, Z.mul_0_r.
    destruct (Z.ltb_spec den 0); [lia|].
    destruct (Z.eqb_spec den 0); [lia|]. cbn. lia.
  - destruct (_ || _); lia.
Qed.

Lemma rne_div_exact (den k : Z) : 0 < den -> rne_div (k * den) den = k.
Proof.
  intros Hden. unfold rne_div.
  rewrite Z.div_mul, Z.mod_mul, Z.mul_0_r by lia.
  destruct (Z.ltb_spec den 0); [lia|].
  destruct (Z.eqb_spec den 0); [lia|]. reflexivity.
Qed.

Lemma ulp_exponent_nonneg (t : Z) : 0 <= ulp_exponent t.
Proof. unfold ulp_exponent. lia. Qed.

Lemma ulp_exponent_mono (t t' : Z) :
  t <= t' -> ulp_exponent t <= ulp_exponent t'.
Proof.
  intros H. unfold ulp_exponent.
  pose proof (Z.log2_le_mono t t' H). lia.
Qed.

Lemma pow2_pos (k : Z) : 0 <= k -> 0 < 2 ^ k.
Proof. intros Hk. apply Z.pow_pos_nonneg; lia. Qed.

Section Magnitude.

Variables (X U : Z).
Hypothesis U_pos : 0 < U.
Hypothesis X_nonneg : 0 <= X.

Let s := ulp_exponent (X / U).

(** The magnitude is below [2^53] units in the last place. *)
Lemma magnitude_upper : X < 2 ^ (s + 53) * U.
Proof.
  pose proof (ulp_exponent_nonneg (X / U)) as Hs. fold s in Hs.
  assert (Ht : 0 <= X / U) by (apply Z.div_pos; lia).
  assert (Hlt : X / U < 2 ^ (s + 53)).
  { destruct (Z.eq_dec (X / U) 0) as [->|Hne].
    - apply pow2_pos. lia.
    - pose proof (Z.log2_spec (X / U) ltac:(lia)) as [_ Hlog].
      eapply Z.lt_le_trans; [exact Hlog|].
      apply Z.pow_le_mono_r; [lia|]. unfold s, ulp_exponent. lia. }
  pose proof (Z.div_mod X U ltac:(lia)) as Hdm.
  pose proof (Z.mod_pos_bound X U U_pos) as Hrem.
  nia.
Qed.

(** Above the subnormals it is at least [2^52] units in the last place. *)
Lemma magnitude_lower : 0 < s -> 2 ^ (s + 52) * U <= X.
Proof.
  intros Hs.
  assert (Hlog2 : s + 52 = Z.log2 (X / U)) by (unfold s, ulp_exponent in *; lia).
  assert (Ht : 0 < X / U).
  { destruct (Z.lt_trichotomy (X / U) 0) as [H|[H|H]]; [|rewrite H in Hlog2; cbn in Hlog2|]; try lia.
    pose proof (Z.div_pos X U). lia. }
  pose proof (Z.log2_spec (X / U) Ht) as [Hlog _].
  rewrite Hlog2.
  pose proof (Z.div_mod X U ltac:(lia)) as Hdm.
  pose proof (Z.mod_pos_bound X U U_pos) as Hrem.
  nia.
Qed.

End Magnitude.

Lemma pow2_split (a b : Z) : 0 <= a -> 0 <= b -> 2 ^ (a + b) = 2 ^ a * 2 ^ b.
Proof. intros. now rewrite Z.pow_add_r. Qed.

(** A binary64 value at or below the magnitude stays at or below its
    rounding. *)
Lemma round_above (X Xc U : Z) :
  0 < U -> 0 <= Xc <= X ->
  Xc = fst (round_magnitude Xc U) * (2 ^ snd (round_magnitude Xc U) * U) ->
  Xc <= fst (round_magnitude X U) * (2 ^ snd (round_magnitude X U) * U).
Proof.
  intros HU HX Hexact. unfold round_magnitude in *. cbn [fst snd] in *.
  set (sc := ulp_exponent (Xc / U)) in *.
  set (s := ulp_exponent (X / U)).
  assert (Hmono : sc <= s).
  { apply ulp_exponent_mono. apply Z.div_le_mono; lia. }
  pose proof (ulp_exponent_nonneg (Xc / U)) as Hsc. fold sc in Hsc.
  assert (HG : 0 < 2 ^ s * U) by (apply Z.mul_pos_pos; [apply pow2_pos|]; lia).
  destruct (Z.eq_dec sc s) as [Heq|Hne].
  - rewrite Heq in Hexact.
    set (nc := rne_div Xc (2 ^ s * U)) in *.
    assert (nc <= rne_div X (2 ^ s * U)) by (apply rne_div_ge; lia).
    nia.
  - assert (Hs : 0 < s) by lia.
    pose proof (magnitude_lower X U HU ltac:(lia) Hs) as Hlow. fold s in Hlow.
    pose proof (magnitude_upper Xc U HU ltac:(lia)) as Hup. fold sc in Hup.
    assert (H52 : 2 ^ 52 <= rne_div X (2 ^ s * U)).
    { apply rne_div_ge; [lia|]. rewrite pow2_split in Hlow by lia. lia. }
    assert (Hpow : 2 ^ (sc + 53) <= 2 ^ (s + 52))
      by (apply Z.pow_le_mono_r; lia).
    rewrite pow2_split in Hlow by lia.
    assert (2 ^ (sc + 53) * U <= 2 ^ (s + 52) * U) by nia.
    rewrite (pow2_split s 52) in * by lia.
    nia.
Qed.

(** A binary64 value at or above the magnitude stays at or above its
    rounding. *)
Lemma round_below (X Xc U : Z) :
  0 < U -> 0 <= X <= Xc ->
  Xc = fst (round_magnitude Xc U) * (2 ^ snd (round_magnitude Xc U) * U) ->
  fst (round_magnitude X U) * (2 ^ snd (round_magnitude X U) * U) <= Xc.
Proof.
  intros HU HX Hexact. unfold round_magnitude in *. cbn [fst snd] in *.
  set (sc := ulp_exponent (Xc / U)) in *.
  set (s := ulp_exponent (X / U)).
  assert (Hmono : s <= sc).
  { apply ulp_exponent_mono. apply Z.div_le_mono; lia. }
  pose proof (ulp_exponent_nonneg (X / U)) as Hs. fold s in Hs.
  assert (HG : 0 < 2 ^ s * U) by (apply Z.mul_pos_pos; [apply pow2_pos|]; lia).
  destruct (Z.eq_dec s sc) as [Heq|Hne].
  - rewrite <- Heq in Hexact.
    set (nc := rne_div Xc (2 ^ s * U)) in *.
    assert (rne_div X (2 ^ s * U) <= nc) by (apply rne_div_le; lia).
    nia.
  - assert (Hsc : 0 < sc) by lia.
    pose proof (magnitude_lower Xc U HU ltac:(lia) Hsc) as Hlow. fold sc in Hlow.
    pose proof (magnitude_upper X U HU ltac:(lia)) as Hup. fold s in Hup.
    assert (H53 : rne_div X (2 ^ s * U) <= 2 ^ 53).
    { apply rne_div_le; [lia|]. rewrite pow2_split in Hup by lia. lia. }
    assert (Hpow : 2 ^ (s + 53) <= 2 ^ (sc + 52))
      by (apply Z.pow_le_mono_r; lia).
    rewrite (pow2_split s 53) in Hpow by lia.
    assert (0 < 2 ^ s) by (apply pow2_pos; lia).
    nia.
Qed.

End Rounding.

(** ** The sum of Numbers *)

Section Sums.

Lemma compare_antisym (x y : number) :
  compare y x = option_map CompOpp (compare x y).
Proof.
  destruct x as [|[]|m1 e1], y as [|[]|m2 e2]; try reflexivity.
  cbn [compare option_map]. rewrite (Z.min_comm e2 e1).
  now rewrite Z.compare_antisym.
Qed.

(** [x >= c] read from the comparison of [c] with [x]. *)
Lemma ge_of_compare (x c : number) :
  compare c x = Some Lt \/ compare c x = Some Eq -> ge x c = true.
Proof.
  unfold ge. rewrite (compare_antisym c x). now intros [-> | ->].
Qed.

Lemma units_scale (m e : Z) :
  units m e = (Z.abs (scale m e (Z.min e 0)) * 2 ^ 1074, 10 ^ (- Z.min e 0)).
Proof.
  unfold units, scale.
  replace (e - Z.min e 0) with (Z.max e 0) by lia.
  replace (Z.max (- e) 0) with (- Z.min e 0) by lia.
  rewrite Z.abs_mul, (Z.abs_eq (10 ^ Z.max e 0))
    by (apply Z.pow_nonneg; lia).
  reflexivity.
Qed.

Lemma pow10_split (k : Z) : 0 <= k -> 10 ^ k = 2 ^ k * 5 ^ k.
Proof. intros Hk. now rewrite <- Z.pow_mul_l. Qed.

(** A number compared with a rounded magnitude, in units of [2^-1074]. *)
Lemma compare_Fin_spell (mc ec : Z) (negative : bool) (n s : Z) :
  0 <= s ->
  compare (Fin mc ec) (spell negative n s)
  = Some (scale mc ec (Z.min ec 0) * 2 ^ 1074
          ?= (if negative then - n else n) * 2 ^ s * 10 ^ (- Z.min ec 0)).
Proof.
  intros Hs. set (e0 := Z.min ec 0). set (v := if negative then - n else n).
  assert (He0 : e0 <= 0) by (subst e0; lia).
  assert (HK : 0 < 5 ^ 1074) by (apply Z.pow_pos_nonneg; lia).
  assert (Hc : scale mc ec (e0 - 1074)
               = scale mc ec e0 * 2 ^ 1074 * 5 ^ 1074).
  { rewrite (scale_rebase mc ec e0 (e0 - 1074)) by (subst e0; lia).
    replace (e0 - (e0 - 1074)) with 1074 by lia.
    rewrite (pow10_split 1074) by lia. ring. }
  unfold spell. fold v. destruct (Z.leb_spec 1074 s) as [Hbig|Hsmall].
  - rewrite (compare_Fin_at mc ec _ 0 (e0 - 1074)) by (subst e0; lia).
    rewrite Hc.
    assert (Hr : scale (v * 2 ^ (s - 1074)) 0 (e0 - 1074)
                 = v * 2 ^ s * 10 ^ (- e0) * 5 ^ 1074).
    { unfold scale. replace (0 - (e0 - 1074)) with (1074 + - e0) by lia.
      rewrite Z.pow_add_r, (pow10_split 1074) by lia.
      assert (H2 : 2 ^ s = 2 ^ (s - 1074) * 2 ^ 1074)
        by (rewrite <- Z.pow_add_r by lia; f_equal; lia).
      rewrite H2. ring. }
    rewrite Hr. f_equal. symmetry. apply Zmult_compare_compat_r. lia.
  - rewrite (compare_Fin_at mc ec _ (s - 1074) (e0 - 1074))
      by (subst e0; lia).
    rewrite Hc.
    assert (Hr : scale (v * 5 ^ (1074 - s)) (s - 1074) (e0 - 1074)
                 = v * 2 ^ s * 10 ^ (- e0) * 5 ^ 1074).
    { unfold scale. replace (s - 1074 - (e0 - 1074)) with (s + - e0) by lia.
      rewrite Z.pow_add_r, (pow10_split s) by lia.
      assert (H5 : 5 ^ 1074 = 5 ^ (1074 - s) * 5 ^ s)
        by (rewrite <- Z.pow_add_r by lia; f_equal; lia).
      rewrite H5. ring. }
    rewrite Hr. f_equal. symmetry. apply Zmult_compare_compat_r. lia.
Qed.

Lemma compare_Fin_sum (mc ec w : Z) :
  compare (Fin mc ec) (Fin w (Z.min ec 0))
  = Some (scale mc ec (Z.min ec 0) ?= w).
Proof.
  rewrite (compare_Fin_at mc ec w (Z.min ec 0) (Z.min ec 0)) by lia.
  unfold scale at 2. now rewrite Z.sub_diag, Z.pow_0_r, Z.mul_1_r.
Qed.

Lemma rne_div_nonneg (num den : Z) :
  0 <= num -> 0 < den -> 0 <= rne_div num den.
Proof.
  intros Hn Hd. pose proof (rne_div_floor num den).
  pose proof (Z.div_pos num den Hn Hd). lia.
Qed.

(** Adding one to a binary64 value, or to any decimal, gives at least that
    value. *)
Lemma add_one_ge (c : number) :
  is_NaN c = false -> ge (add c (Int 1)) c = true.
Proof.
  destruct c as [|[]|mc ec]; try easy. intros _.
  unfold Int. cbn [add].
  set (e0 := Z.min ec 0).
  set (V := scale mc ec e0).
  assert (Hone : scale 1 0 e0 = 10 ^ (- e0))
    by (unfold scale; rewrite Z.mul_1_l; f_equal; lia).
  rewrite Hone.
  assert (HU : 0 < 10 ^ (- e0)) by (apply pow10_pos; subst e0; lia).
  apply ge_of_compare.
  destruct (is_binary64 (Fin mc ec) && is_binary64 (Fin 1 0)) eqn:Hreal.
  2:{ subst e0 V. rewrite compare_Fin_sum.
      destruct (Z.compare_spec (scale mc ec (Z.min ec 0))
                  (scale mc ec (Z.min ec 0) + 10 ^ (- Z.min ec 0)));
        auto; lia. }
  apply andb_true_iff in Hreal. destruct Hreal as [Hexact _].
  cbn [is_binary64] in Hexact. unfold exact64 in Hexact.
  rewrite units_scale in Hexact. fold e0 V in Hexact.
  unfold round64. rewrite units_scale.
  replace (Z.min e0 0) with e0 by (subst e0; lia).
  replace (scale (V + 10 ^ (- e0)) e0 e0) with (V + 10 ^ (- e0))
    by (unfold scale; rewrite Z.sub_diag, Z.pow_0_r; lia).
  set (U := 10 ^ (- e0)) in *. set (A := 2 ^ 1074) in *.
  assert (HA : 0 < A) by (subst A; apply pow2_pos; lia).
  destruct (round_magnitude (Z.abs V * A) U) as [nc sc] eqn:Hc.
  apply andb_true_iff in Hexact. destruct Hexact as [Hfin Hgrid].
  apply Z.ltb_lt in Hfin. apply Z.eqb_eq in Hgrid.
  destruct (round_magnitude (Z.abs (V + U) * A) U) as [n s] eqn:Hw.
  assert (Hs : 0 <= s).
  { replace s with (snd (round_magnitude (Z.abs (V + U) * A) U))
      by now rewrite Hw.
    apply ulp_exponent_nonneg. }
  assert (Hn : 0 <= n).
  { replace n with (fst (round_magnitude (Z.abs (V + U) * A) U))
      by now rewrite Hw.
    unfold round_magnitude. cbn [fst]. apply rne_div_nonneg; [lia|].
    apply Z.mul_pos_pos; [apply pow2_pos, ulp_exponent_nonneg|lia]. }
  assert (Hp : 0 < 2 ^ s) by now apply pow2_pos.
  assert (Hgrid' : Z.abs V * A
                   = fst (round_magnitude (Z.abs V * A) U)
                     * (2 ^ snd (round_magnitude (Z.abs V * A) U) * U))
    by now rewrite Hc.
  destruct (Z.le_gt_cases 0 V) as [Hpos|Hneg].
  - (* a value that is not negative *)
    pose proof (round_above (Z.abs (V + U) * A) (Z.abs V * A) U HU
                  ltac:(nia) Hgrid') as Habove.
    rewrite Hw in Habove. cbn [fst snd] in Habove.
    destruct (Z.ltb_spec (V + U) 0); [lia|].
    destruct (Z.leb_spec (2 ^ 2098) (n * 2 ^ s)); [now left|].
    destruct (Z.eqb_spec (Z.abs (V + U) * A) (n * (2 ^ s * U))).
    + subst e0 V. rewrite compare_Fin_sum.
      destruct (Z.compare_spec (scale mc ec (Z.min ec 0))
                  (scale mc ec (Z.min ec 0) + U)); auto; lia.
    + subst e0 V. rewrite compare_Fin_spell by exact Hs.
      fold U A.
      destruct (Z.compare_spec (scale mc ec (Z.min ec 0) * A)
                  (n * 2 ^ s * U)); auto; lia.
  - destruct (Z.le_gt_cases 0 (V + U)) as [Hup|Hdown].
    + (* a negative value, a sum that is not *)
      destruct (Z.ltb_spec (V + U) 0); [lia|].
      destruct (Z.leb_spec (2 ^ 2098) (n * 2 ^ s)); [now left|].
      destruct (Z.eqb_spec (Z.abs (V + U) * A) (n * (2 ^ s * U))).
      * subst e0 V. rewrite compare_Fin_sum.
        destruct (Z.compare_spec (scale mc ec (Z.min ec 0))
                    (scale mc ec (Z.min ec 0) + U)); auto; lia.
      * subst e0 V. rewrite compare_Fin_spell by exact Hs.
        fold U A.
        destruct (Z.compare_spec (scale mc ec (Z.min ec 0) * A)
                    (n * 2 ^ s * U)); auto; nia.
    + (* both negative: the magnitude shrinks *)
      pose proof (round_below (Z.abs (V + U) * A) (Z.abs V * A) U HU
                    ltac:(nia) Hgrid') as Hbelow.
      rewrite Hw in Hbelow. cbn [fst snd] in Hbelow.
      rewrite Hc in Hgrid'. cbn [fst snd] in Hgrid'.
      destruct (Z.ltb_spec (V + U) 0); [|lia].
      destruct (Z.leb_spec (2 ^ 2098) (n * 2 ^ s)) as [Hover|_].
      { exfalso. assert (n * 2 ^ s * U <= nc * 2 ^ sc * U) by lia. nia. }
      destruct (Z.eqb_spec (Z.abs (V + U) * A) (n * (2 ^ s * U))).
      * subst e0 V. rewrite compare_Fin_sum.
        destruct (Z.compare_spec (scale mc ec (Z.min ec 0))
                    (scale mc ec (Z.min ec 0) + U)); auto; lia.
      * subst e0 V. rewrite compare_Fin_spell by exact Hs.
        fold U A.
        destruct (Z.compare_spec (scale mc ec (Z.min ec 0) * A)
                    (- n * 2 ^ s * U)); auto; nia.
Qed.

End Sums.

Section Exact.

Lemma round64_exact (m e : Z) : exact64 m e = true -> round64 m e = Fin m e.
Proof.
  unfold exact64, round64. destruct (units m e) as [X U].
  destruct (round_magnitude X U) as [n s]. intros H.
  apply andb_true_iff in H. destruct H as [Hfin Hgrid].
  apply Z.ltb_lt in Hfin. rewrite Hgrid.
  destruct (Z.leb_spec (2 ^ 2098) (n * 2 ^ s)); [lia|reflexivity].
Qed.

(** The integers of at most 53 bits are binary64 values. *)
Lemma exact64_Int (z : Z) : Z.abs z < 2 ^ 53 -> exact64 z 0 = true.
Proof.
  intros Hz. unfold exact64, units, round_magnitude.
  change (Z.max 0 0) with 0. change (Z.max (- 0) 0) with 0.
  rewrite Z.pow_0_r, Z.mul_1_r, Z.div_1_r.
  set (a := Z.abs z) in *. set (A := 2 ^ 1074).
  assert (HA : 0 < A) by (subst A; apply pow2_pos; lia).
  destruct (Z.eq_dec a 0) as [Ha|Ha].
  - rewrite Ha. reflexivity.
  - assert (Hpos : 0 < a) by (subst a; lia).
    assert (Hlog : Z.log2 (a * A) = 1074 + Z.log2 a)
      by (subst A; apply Z.log2_mul_pow2; lia).
    assert (Hl : 0 <= Z.log2 a <= 52).
    { split; [apply Z.log2_nonneg|].
      assert (Z.log2 a < 53) by (apply Z.log2_lt_pow2; lia). lia. }
    unfold ulp_exponent. rewrite Hlog.
    replace (Z.max 0 (1074 + Z.log2 a - 52)) with (Z.log2 a + 1022) by lia.
    set (l := Z.log2 a) in *.
    assert (Hsplit : A = 2 ^ (52 - l) * 2 ^ (l + 1022))
      by (subst A; rewrite <- Z.pow_add_r by lia; f_equal; lia).
    assert (Hp : 0 < 2 ^ (l + 1022)) by (apply pow2_pos; lia).
    replace (a * A) with ((a * 2 ^ (52 - l)) * (2 ^ (l + 1022) * 1))
      by (rewrite Hsplit; ring).
    rewrite rne_div_exact by lia.
    apply andb_true_iff. split; [|apply Z.eqb_refl].
    apply Z.ltb_lt.
    replace (a * 2 ^ (52 - l) * 2 ^ (l + 1022)) with (a * A)
      by (rewrite Hsplit; ring).
    assert (Hbig : 2 ^ 53 * A <= 2 ^ 2098).
    { subst A. rewrite <- Z.pow_add_r by lia.
      apply Z.pow_le_mono_r; lia. }
    nia.
Qed.

Lemma exact64_Int_le (z : Z) : 0 <= z <= 2 ^ 53 -> exact64 z 0 = true.
Proof.
  intros Hz. destruct (Z.eq_dec z (2 ^ 53)) as [->|Hne].
  - vm_compute. reflexivity.
  - apply exact64_Int. lia.
Qed.

Lemma round64_Int (z : Z) : Z.abs z < 2 ^ 53 -> round64 z 0 = Int z.
Proof. intros Hz. now apply round64_exact, exact64_Int. Qed.

(** A numeric literal that writes a binary64 integer denotes it. *)
Lemma to_number_exact (v : Z) :
  exact64 v 0 = true -> to_number v 0 = Int v.
Proof.
  intros Hexact. unfold to_number.
  destruct (Z.eqb_spec v 0) as [->|_]; [reflexivity|].
  cbn [Z.ltb Z.compare andb]. now apply round64_exact.
Qed.

(** The sum of binary64 integers is exact when it is a binary64 value. *)
Lemma add_Int_exact (a b : Z) :
  exact64 a 0 = true -> exact64 b 0 = true -> exact64 (a + b) 0 = true ->
  add (Int a) (Int b) = Int (a + b).
Proof.
  intros Ha Hb Hab. unfold Int. cbn [add is_binary64].
  rewrite Ha, Hb. cbn [andb].
  change (Z.min 0 0) with 0. unfold scale.
  rewrite Z.sub_diag, Z.pow_0_r, !Z.mul_1_r.
  now apply round64_exact.
Qed.

(** The sum of integers, when they and it have at most 53 bits. *)
Lemma add_Int (a b : Z) :
  Z.abs a < 2 ^ 53 -> Z.abs b < 2 ^ 53 -> Z.abs (a + b) < 2 ^ 53 ->
  add (Int a) (Int b) = Int (a + b).
Proof. intros Ha Hb Hab. now apply add_Int_exact; apply exact64_Int. Qed.

Lemma add_Int_nonneg (a b : Z) :
  0 <= a -> 0 <= b -> a + b <= 2 ^ 53 ->
  add (Int a) (Int b) = Int (a + b).
Proof.
  intros Ha Hb Hab. apply add_Int_exact; apply exact64_Int_le; lia.
Qed.

(** One more than an integer of at most 53 bits. *)
Lemma add_one_Int (n : Z) :
  Z.abs n < 2 ^ 53 -> add (Int n) (Int 1) = Int (n + 1).
Proof.
  intros Hn. apply add_Int_exact.
  - now apply exact64_Int.
  - reflexivity.
  - destruct (Z.eq_dec (n + 1) (2 ^ 53)) as [->|Hne].
    + reflexivity.
    + apply exact64_Int. change (2 ^ 53) with 9007199254740992 in *. lia.
Qed.

(** What a non-negative literal denotes is not below zero. *)
Lemma ge_zero_Fin (m e : Z) : 0 <= m -> ge (Fin m e) (Int 0) = true.
Proof.
  intros Hm. unfold ge, lt, Int.
  rewrite (compare_Fin_at m e 0 0 (Z.min e 0)) by lia. unfold scale.
  assert (0 < 10 ^ (e - Z.min e 0)) by (apply pow10_pos; lia).
  destruct (Z.compare_spec (m * 10 ^ (e - Z.min e 0))
              (0 * 10 ^ (0 - Z.min e 0))); try reflexivity.
  nia.
Qed.

Lemma to_number_nonneg (m : Z) :
  0 <= m -> ge (to_number m 0) (Int 0) = true.
Proof.
  intros Hm. unfold to_number.
  destruct (Z.eqb_spec m 0) as [->|Hne]; [reflexivity|].
  cbn [Z.ltb Z.compare andb]. unfold round64, units, round_magnitude.
  change (Z.max 0 0) with 0. change (Z.max (- 0) 0) with 0.
  rewrite Z.pow_0_r, Z.mul_1_r, Z.div_1_r.
  set (X := Z.abs m * 2 ^ 1074). set (s := ulp_exponent X).
  assert (Hs : 0 < 2 ^ s * 1)
    by (pose proof (pow2_pos s (ulp_exponent_nonneg X)); lia).
  assert (HX : 0 <= X)
    by (subst X; pose proof (pow2_pos 1074 ltac:(lia)); nia).
  pose proof (rne_div_nonneg X (2 ^ s * 1) HX Hs) as Hn.
  destruct (Z.ltb_spec m 0); [lia|].
  destruct (_ <=? _); [reflexivity|].
  destruct (_ =? _); [now apply ge_zero_Fin|].
  unfold spell. destruct (1074 <=? s) eqn:Hbig; apply ge_zero_Fin.
  - apply Z.leb_le in Hbig.
    pose proof (pow2_pos (s - 1074) ltac:(lia)). nia.
  - apply Z.leb_gt in Hbig.
    assert (0 < 5 ^ (1074 - s)) by (apply Z.pow_pos_nonneg; lia). nia.
Qed.

End Exact.

(** Bounds against [2^53], by linear arithmetic. *)
Ltac safe_integers := change (2 ^ 53) with 9007199254740992 in *; lia.

(** A conjunction of closed equations, by evaluation. *)
Ltac evaluate :=
  repeat match goal with |- _ /\ _ => split end; vm_compute; reflexivity.

(** ** The Numbers of a run are binary64 values *)

Section Binary64Values.

(** A multiple [n * 2^s] with [n <= 2^53] is a multiple of its own unit in
    the last place. *)
Lemma grid_divides (n s : Z) :
  0 <= n <= 2 ^ 53 -> 0 <= s ->
  exists q, n * 2 ^ s = q * 2 ^ ulp_exponent (n * 2 ^ s).
Proof.
  intros Hn Hs. unfold ulp_exponent.
  destruct (Z.eq_dec n 0) as [->|Hpos].
  { exists 0. now rewrite !Z.mul_0_l. }
  rewrite Z.log2_mul_pow2 by lia.
  destruct (Z.eq_dec n (2 ^ 53)) as [->|Hne].
  - rewrite Z.log2_pow2 by lia.
    replace (Z.max 0 (s + 53 - 52)) with (s + 1) by lia.
    exists (2 ^ 52). rewrite (Z.pow_add_r 2 s 1) by lia.
    change (2 ^ 53) with (2 ^ 52 * 2 ^ 1). ring.
  - assert (Hlog : Z.log2 n < 53) by (apply Z.log2_lt_pow2; lia).
    set (s' := Z.max 0 (s + Z.log2 n - 52)).
    assert (Hs' : 0 <= s' <= s) by (subst s'; lia).
    exists (n * 2 ^ (s - s')).
    rewrite <- Z.mul_assoc, <- Z.pow_add_r by lia. do 2 f_equal. lia.
Qed.

(** A decimal whose magnitude is [n * 2^s] units, [n <= 2^53], below the
    overflow threshold, is a binary64 value. *)
Lemma exact64_grid (m e n s U : Z) :
  units m e = (n * 2 ^ s * U, U) -> 0 < U ->
  0 <= n <= 2 ^ 53 -> 0 <= s -> n * 2 ^ s < 2 ^ 2098 ->
  exact64 m e = true.
Proof.
  intros Hunits HU Hn Hs Hfin. unfold exact64, round_magnitude.
  rewrite Hunits, Z.div_mul by lia.
  destruct (grid_divides n s Hn Hs) as [q Hq].
  set (s' := ulp_exponent (n * 2 ^ s)) in *.
  assert (Hp : 0 < 2 ^ s') by (apply pow2_pos, ulp_exponent_nonneg).
  replace (n * 2 ^ s * U) with (q * (2 ^ s' * U)) by (rewrite Hq; ring).
  rewrite rne_div_exact by nia.
  rewrite <- Hq, Z.eqb_refl.
  now apply andb_true_iff; split; [apply Z.ltb_lt|].
Qed.

(** Every result of [round64] is a binary64 value. *)
Lemma round64_binary64 (m e : Z) : is_binary64 (round64 m e) = true.
Proof.
  unfold round64. destruct (units m e) as [X U] eqn:Hunits.
  assert (HU : 0 < U).
  { unfold units in Hunits. injection Hunits as _ <-.
    apply pow10_pos. lia. }
  assert (HX : 0 <= X).
  { unfold units in Hunits. injection Hunits as <- _.
    assert (0 < 10 ^ Z.max e 0) by (apply pow10_pos; lia).
    pose proof (pow2_pos 1074 ltac:(lia)). nia. }
  destruct (round_magnitude X U) as [n s] eqn:Hw.
  assert (Hs : s = ulp_exponent (X / U))
    by (unfold round_magnitude in Hw; now injection Hw).
  assert (Hsn : 0 <= s) by (rewrite Hs; apply ulp_exponent_nonneg).
  assert (Hn : n = rne_div X (2 ^ s * U))
    by (unfold round_magnitude in Hw; rewrite Hs; now injection Hw).
  assert (Hp : 0 < 2 ^ s) by now apply pow2_pos.
  assert (Hn0 : 0 <= n) by (rewrite Hn; apply rne_div_nonneg; nia).
  assert (Hn53 : n <= 2 ^ 53).
  { rewrite Hn. apply rne_div_le; [nia|].
    pose proof (magnitude_upper X U HU HX) as Hup. rewrite <- Hs in Hup.
    rewrite pow2_split in Hup by lia. lia. }
  destruct (Z.leb_spec (2 ^ 2098) (n * 2 ^ s)) as [|Hfin]; [reflexivity|].
  destruct (Z.eqb_spec X (n * (2 ^ s * U))) as [Hgrid|Hoff].
  - cbn [is_binary64]. unfold exact64. rewrite Hunits, Hw.
    apply andb_true_iff. split; [now apply Z.ltb_lt|now apply Z.eqb_eq].
  - unfold spell. set (v := if m <? 0 then - n else n).
    assert (Hv : Z.abs v = n) by (subst v; destruct (m <? 0); lia).
    destruct (Z.leb_spec 1074 s) as [Hbig|Hsmall]; cbn [is_binary64].
    + apply (exact64_grid _ _ n s 1); [|lia|lia|lia|lia].
      unfold units. change (Z.max 0 0) with 0. change (Z.max (- 0) 0) with 0.
      rewrite Z.pow_0_r, Z.abs_mul, Hv.
      rewrite (Z.abs_eq (2 ^ (s - 1074))) by (apply Z.pow_nonneg; lia).
      f_equal.
      assert (H2 : 2 ^ s = 2 ^ (s - 1074) * 2 ^ 1074)
        by (rewrite <- Z.pow_add_r by lia; f_equal; lia).
      rewrite H2. ring.
    + apply (exact64_grid _ _ n s (10 ^ (1074 - s)));
        [|apply pow10_pos; lia|lia|lia|lia].
      unfold units.
      replace (Z.max (s - 1074) 0) with 0 by lia.
      replace (Z.max (- (s - 1074)) 0) with (1074 - s) by lia.
      rewrite Z.pow_0_r, Z.abs_mul, Hv.
      rewrite (Z.abs_eq (5 ^ (1074 - s))) by (apply Z.pow_nonneg; lia).
      f_equal. rewrite (pow10_split (1074 - s)) by lia.
      assert (H2 : 2 ^ 1074 = 2 ^ s * 2 ^ (1074 - s))
        by (rewrite <- Z.pow_add_r by lia; f_equal; lia).
      rewrite H2. ring.
Qed.

Lemma to_number_binary64 (m e : Z) : is_binary64 (to_number m e) = true.
Proof.
  unfold to_number.
  repeat match goal with |- context [if ?b then _ else _] => destruct b end;
    try reflexivity.
  apply round64_binary64.
Qed.

(** What unary [+] gives is a binary64 value. *)
Lemma StringToNumber_binary64 (s : string) :
  is_binary64 (StringToNumber s) = true.
Proof.
  unfold StringToNumber. destruct (is_empty (trim s)); [reflexivity|].
  destruct (parse_non_decimal (trim s)) as [x|] eqn:Hnd.
  - unfold parse_non_decimal in Hnd.
    destruct (trim s) as [|z [|p r]]; try discriminate.
    destruct (radix_of_prefix p); [|discriminate].
    destruct (_ && _); [|discriminate].
    injection Hnd as <-. apply to_number_binary64.
  - unfold parse_decimal_literal.
    destruct (split_sign (trim s)) as [negative u].
    destruct (String.eqb u "Infinity"); [reflexivity|].
    destruct (parse_unsigned_decimal u) as [[m e]|]; [|reflexivity].
    apply to_number_binary64.
Qed.

(** A sum of binary64 values is a binary64 value. *)
Lemma add_binary64 (x y : number) :
  is_binary64 x = true -> is_binary64 y = true ->
  is_binary64 (add x y) = true.
Proof.
  intros Hx Hy. destruct x as [|sx|m1 e1], y as [|sy|m2 e2];
    try reflexivity.
  - cbn [add]. now destruct (Bool.eqb sx sy).
  - cbn [add]. rewrite Hx, Hy. cbn [andb]. apply round64_binary64.
Qed.

(** Every field of a parsed descriptor is a binary64 value. *)
Lemma versionStringToVersion_binary64 (versionString : string) :
  binary64_fields (versionStringToVersion versionString) = true.
Proof.
  unfold binary64_fields, versionStringToVersion.
  cbn [major minor patch build].
  now rewrite !StringToNumber_binary64.
Qed.

End Binary64Values.

Section Order.

Lemma lt_ge_trans (y x z : number) :
  lt y x = true -> ge z x = true -> lt y z = true.
Proof.
  destruct x as [|[]|mx ex], y as [|[]|my ey], z as [|[]|mz ez];
    try solve [cbn; easy].
  unfold lt, ge.
  set (E := Z.min ex (Z.min ey ez)).
  rewrite (compare_Fin_at my ey mx ex E), (compare_Fin_at mz ez mx ex E),
    (compare_Fin_at my ey mz ez E) by lia.
  destruct (Z.compare_spec (scale my ey E) (scale mx ex E)); try easy.
  destruct (Z.compare_spec (scale mz ez E) (scale mx ex E)); try easy;
    intros _ _;
    destruct (Z.compare_spec (scale my ey E) (scale mz ez E)); try easy; lia.
Qed.

Lemma lt_ge_flip (y z : number) : lt y z = true -> ge z y = true.
Proof.
  unfold lt, ge. rewrite (compare_antisym y z).
  now destruct (compare y z) as [[]|].
Qed.

Lemma lt_not_NaN (y x : number) : lt y x = true -> is_NaN x = false.
Proof. now destruct y as [|[]|], x. Qed.

(** Adding one to a number above [y] stays above [y]. *)
Lemma lt_add_one (x y : number) :
  lt y x = true -> lt y (add x (Int 1)) = true.
Proof.
  intros H. apply (lt_ge_trans y x); [exact H|].
  apply add_one_ge. now apply (lt_not_NaN y).
Qed.

(** Adding one to a number above [y] stays at or above [y]. *)
Lemma ge_add_one (x y : number) :
  lt y x = true -> ge (add x (Int 1)) y = true.
Proof. intros H. now apply lt_ge_flip, lt_add_one. Qed.

End Order.

(** ** The build-increment decision *)

Section BuildIncrement.

Variables (current requested : Version) (maxBuilds : option number).

(** With a current descriptor, [updateVersionBuild] is a decision on three
    tests. *)
Lemma updateVersionBuild_unfold :
  updateVersionBuild (Some current) requested maxBuilds =
  if same_semantic_version current requested
     && lt (build requested) (build current)
  then if ge (add (build current) (Int 1)) (effective_maxBuilds maxBuilds)
       then Throw (Error build_limit_message)
       else Return (with_build requested (add (build current) (Int 1)))
  else Return requested.
Proof.
  unfold updateVersionBuild, versionEquals, same_semantic_version.
  cbn [deref bind].
  destruct (strict_eq (major current) (major requested)
            && strict_eq (minor current) (minor requested)
            && strict_eq (patch current) (patch requested)); cbn [andb bind].
  - destruct (lt (build requested) (build current)); reflexivity.
  - reflexivity.
Qed.

End BuildIncrement.

(** C1, as stated, fails on the code. With the builds [2^53] and 1 and the
    ceiling [10^17], major, minor and patch agree, the requested build is
    below the current one and [2^53 + 1] is below the ceiling; the build
    returned is [2^53], the binary64 sum, and not [2^53 + 1]. *)
Lemma updateVersionBuild_increment_rounds :
  lt (Int 1) (Int (2 ^ 53)) = true
  /\ lt (Int (2 ^ 53 + 1)) (Int (10 ^ 17)) = true
  /\ updateVersionBuild (Some (version_of 1 2 3 (2 ^ 53)))
       (version_of 1 2 3 1) (Some (Int (10 ^ 17)))
     = Return (version_of 1 2 3 (2 ^ 53))
  /\ strict_eq (Int (2 ^ 53)) (Int (2 ^ 53 + 1)) = false.
Proof. evaluate. Qed.

(** C1, as the code has it. When current and requested agree on major,
    minor and patch, the requested build is below the current one and the
    sum [current.build + 1] the code computes, a binary64 sum, is strictly
    below [maxBuilds], [updateVersionBuild] returns requested with its
    build replaced by that sum. The sum is [n + 1] itself when the current
    build is an integer [n] of magnitude below [2^53]. *)
Theorem updateVersionBuild_increments
  (current requested : Version) (maxBuilds : option number) :
  strict_eq (major current) (major requested) = true ->
  strict_eq (minor current) (minor requested) = true ->
  strict_eq (patch current) (patch requested) = true ->
  lt (build requested) (build current) = true ->
  lt (add (build current) (Int 1)) (effective_maxBuilds maxBuilds) = true ->
  updateVersionBuild (Some current) requested maxBuilds =
  Return {| major := major requested;
            minor := minor requested;
            patch := patch requested;
            build := add (build current) (Int 1) |}
  /\ (forall n : Z,
        build current = Int n -> Z.abs n < 2 ^ 53 ->
        add (build current) (Int 1) = Int (n + 1)).
Proof.
  intros Hmajor Hminor Hpatch Hlower Hbelow. split.
  - rewrite updateVersionBuild_unfold. unfold same_semantic_version.
    rewrite Hmajor, Hminor, Hpatch, Hlower. cbn [andb].
    now rewrite (lt_not_ge _ _ Hbelow).
  - intros n -> Hn. now apply add_one_Int.
Qed.

(** The example of C1: [decideNextVersion({1,2,3,5}, {1,2,3,1})] is
    [{1,2,3,6}], with the default ceiling. *)
Lemma updateVersionBuild_increments_witness :
  updateVersionBuild (Some (version_of 1 2 3 5)) (version_of 1 2 3 1) None =
  Return (version_of 1 2 3 6).
Proof.
  exact (proj1 (updateVersionBuild_increments
                  (version_of 1 2 3 5) (version_of 1 2 3 1) None
                  eq_refl eq_refl eq_refl eq_refl eq_refl)).
Defined.

(** C2, as stated, fails on the code. With the builds [2^53 + 2] and 0 and
    the ceiling [2^53 + 4], [current.build + 1] is [2^53 + 3], below the
    ceiling, and the code throws: the sum it computes is rounded to
    [2^53 + 4]. *)
Lemma updateVersionBuild_fails_rounds :
  lt (Int 0) (Int (2 ^ 53 + 2)) = true
  /\ ge (Int (2 ^ 53 + 2 + 1)) (Int (2 ^ 53 + 4)) = false
  /\ add (Int (2 ^ 53 + 2)) (Int 1) = Int (2 ^ 53 + 4)
  /\ updateVersionBuild (Some (version_of 1 2 3 (2 ^ 53 + 2)))
       (version_of 1 2 3 0) (Some (Int (2 ^ 53 + 4)))
     = Throw (Error build_limit_message).
Proof. evaluate. Qed.

(** C2, as the code has it. With a current descriptor, [updateVersionBuild]
    throws exactly when major, minor and patch agree, the requested build
    is below the current one and the binary64 sum [current.build + 1] is at
    or above [maxBuilds]; what it throws is the build limit error;
    otherwise it returns requested, with its own build or with that sum.
    For a current build that is an integer [n] of magnitude below [2^53]
    and an integer ceiling [M] the last test is [n + 1 >= M]. At
    [{1,2,3,99}], [{1,2,3,1}] and ceiling 100 it throws. *)
Theorem updateVersionBuild_fails_iff
  (current requested : Version) (maxBuilds : option number) :
  (updateVersionBuild (Some current) requested maxBuilds
     = Throw (Error build_limit_message)
   <-> (strict_eq (major current) (major requested) = true
        /\ strict_eq (minor current) (minor requested) = true
        /\ strict_eq (patch current) (patch requested) = true
        /\ lt (build requested) (build current) = true
        /\ ge (add (build current) (Int 1)) (effective_maxBuilds maxBuilds)
           = true))
  /\ (updateVersionBuild (Some current) requested maxBuilds
        = Throw (Error build_limit_message)
      \/ updateVersionBuild (Some current) requested maxBuilds
           = Return requested
      \/ updateVersionBuild (Some current) requested maxBuilds
           = Return (with_build requested (add (build current) (Int 1))))
  /\ (forall n M : Z,
        build current = Int n -> Z.abs n < 2 ^ 53 ->
        effective_maxBuilds maxBuilds = Int M ->
        ge (add (build current) (Int 1)) (effective_maxBuilds maxBuilds)
        = (M <=? n + 1))
  /\ updateVersionBuild (Some (version_of 1 2 3 99)) (version_of 1 2 3 1)
       (Some (Int 100))
     = Throw (Error build_limit_message).
Proof.
  split; [|split; [|split]].
  - rewrite updateVersionBuild_unfold. unfold same_semantic_version.
    destruct (strict_eq (major current) (major requested));
      destruct (strict_eq (minor current) (minor requested));
      destruct (strict_eq (patch current) (patch requested));
      destruct (lt (build requested) (build current));
      destruct (ge (add (build current) (Int 1))
                  (effective_maxBuilds maxBuilds));
      cbn [andb]; split; intros H; try discriminate H;
      try (repeat split; reflexivity);
      decompose [and] H; discriminate.
  - rewrite updateVersionBuild_unfold.
    destruct (_ && _); [destruct (ge _ _)|]; auto.
  - intros n M -> Hn ->. now rewrite add_one_Int, ge_Int.
  - reflexivity.
Qed.

(** The example of C2, through the equivalence: the three conditions hold
    at [{1,2,3,99}], [{1,2,3,1}] and the default ceiling, and the call
    throws. *)
Lemma updateVersionBuild_fails_iff_witness :
  updateVersionBuild (Some (version_of 1 2 3 99)) (version_of 1 2 3 1) None
  = Throw (Error build_limit_message).
Proof.
  apply (proj2 (proj1 (updateVersionBuild_fails_iff
                         (version_of 1 2 3 99) (version_of 1 2 3 1) None))).
  split; [|split; [|split; [|split]]]; vm_compute; reflexivity.
Defined.

(** C3. With a [null] current descriptor [updateVersionBuild] returns
    nothing: reading [currentVersion.major] in [versionEquals] throws a
    [TypeError], whatever requested and the ceiling are. *)
Theorem updateVersionBuild_null_current
  (requested : Version) (maxBuilds : option number) :
  versionEquals None requested = Throw TypeError
  /\ updateVersionBuild None requested maxBuilds = Throw TypeError
  /\ updateVersionBuild None requested maxBuilds <> Return requested.
Proof.
  assert (Hequals : versionEquals None requested = Throw TypeError)
    by reflexivity.
  split; [exact Hequals|].
  unfold updateVersionBuild. rewrite Hequals. cbn [bind].
  split; [reflexivity | discriminate].
Qed.

(** C4. With a current descriptor, when major, minor and patch agree and the
    requested build is at or above the current one, or when one of major,
    minor, patch differs, [updateVersionBuild] returns requested itself. *)
Theorem updateVersionBuild_keeps_requested
  (current requested : Version) (maxBuilds : option number) :
  (strict_eq (major current) (major requested) = true
   /\ strict_eq (minor current) (minor requested) = true
   /\ strict_eq (patch current) (patch requested) = true
   /\ ge (build requested) (build current) = true)
  \/ (strict_eq (major current) (major requested) = false
      \/ strict_eq (minor current) (minor requested) = false
      \/ strict_eq (patch current) (patch requested) = false) ->
  updateVersionBuild (Some current) requested maxBuilds = Return requested.
Proof.
  intros H. rewrite updateVersionBuild_unfold. unfold same_semantic_version.
  destruct H as [(Hmajor & Hminor & Hpatch & Hge) | [H | [H | H]]].
  - rewrite (ge_not_lt _ _ Hge). now rewrite !andb_false_r.
  - now rewrite H.
  - rewrite H. now rewrite andb_false_r.
  - rewrite H. now rewrite andb_false_r.
Qed.

(** The two examples of C4: [{1,2,3,5}, {1,2,3,7}] gives [{1,2,3,7}] and
    [{1,2,3,5}, {1,3,0,1}] gives [{1,3,0,1}]. *)
Lemma updateVersionBuild_keeps_requested_witness :
  updateVersionBuild (Some (version_of 1 2 3 5)) (version_of 1 2 3 7) None
    = Return (version_of 1 2 3 7)
  /\ updateVersionBuild (Some (version_of 1 2 3 5)) (version_of 1 3 0 1) None
    = Return (version_of 1 3 0 1).
Proof.
  split.
  - apply updateVersionBuild_keeps_requested. left.
    repeat split; reflexivity.
  - apply updateVersionBuild_keeps_requested. right. right. left.
    reflexivity.
Defined.

(** C10. With a current descriptor and a requested descriptor without [NaN]
    fields, a returned descriptor has requested's major, minor and patch,
    and a build at or above requested's. *)
Theorem updateVersionBuild_frame
  (current requested next : Version) (maxBuilds : option number) :
  is_NaN (major requested) = false ->
  is_NaN (minor requested) = false ->
  is_NaN (patch requested) = false ->
  is_NaN (build requested) = false ->
  updateVersionBuild (Some current) requested maxBuilds = Return next ->
  major next = major requested
  /\ minor next = minor requested
  /\ patch next = patch requested
  /\ ge (build next) (build requested) = true.
Proof.
  intros _ _ _ Hbuild. rewrite updateVersionBuild_unfold.
  destruct (same_semantic_version current requested); cbn [andb].
  - destruct (lt (build requested) (build current)) eqn:Hlower.
    + destruct (ge _ _); [discriminate|].
      intros [= <-]. cbn. repeat split. now apply ge_add_one.
    + intros [= <-]. repeat split. now apply ge_refl.
  - intros [= <-]. repeat split. now apply ge_refl.
Qed.

Lemma updateVersionBuild_frame_witness :
  major (version_of 1 2 3 6) = major (version_of 1 2 3 1)
  /\ minor (version_of 1 2 3 6) = minor (version_of 1 2 3 1)
  /\ patch (version_of 1 2 3 6) = patch (version_of 1 2 3 1)
  /\ ge (build (version_of 1 2 3 6)) (build (version_of 1 2 3 1)) = true.
Proof.
  apply (updateVersionBuild_frame (version_of 1 2 3 5) (version_of 1 2 3 1)
           (version_of 1 2 3 6) None); reflexivity.
Defined.

(** ** Digits and digit strings *)

Section DigitFacts.

Lemma is_digit_value (c : ascii) : (digit_value c <? 10) = is_digit c.
Proof.
  unfold digit_value, is_digit.
  destruct (Z.leb_spec 48 (code c)), (Z.leb_spec (code c) 57); cbn [andb];
    try solve_cmp;
    destruct (Z.leb_spec 97 (code c)), (Z.leb_spec (code c) 102); cbn [andb];
    try solve_cmp;
    destruct (Z.leb_spec 65 (code c)), (Z.leb_spec (code c) 70); cbn [andb];
    solve_cmp.
Qed.

Lemma is_digit_not_whitespace (c : ascii) :
  is_digit c = true -> is_whitespace c = false.
Proof.
  unfold is_digit, is_whitespace. intros H.
  apply andb_true_iff in H. destruct H as [H1 H2].
  apply Z.leb_le in H1. apply Z.leb_le in H2.
  rewrite !orb_false_iff, andb_false_iff. repeat split.
  - right. solve_cmp.
  - apply Z.eqb_neq. lia.
  - apply Z.eqb_neq. lia.
Qed.

(** A digit is none of the other characters the number grammar looks for. *)
Lemma digit_neq (c x : ascii) :
  is_digit c = true -> is_digit x = false -> Ascii.eqb c x = false.
Proof.
  intros Hc Hx. destruct (Ascii.eqb_spec c x) as [->|]; congruence.
Qed.

Lemma digit_char_spec (d : Z) :
  0 <= d < 10 ->
  is_digit (digit_char d) = true /\ digit_value (digit_char d) = d.
Proof.
  intros H.
  assert (Hd : d = 0 \/ d = 1 \/ d = 2 \/ d = 3 \/ d = 4 \/ d = 5 \/ d = 6
               \/ d = 7 \/ d = 8 \/ d = 9) by lia.
  repeat (destruct Hd as [-> | Hd]; [now split|]). subst d. now split.
Qed.

Lemma all_digits_app (radix : Z) (s t : string) :
  all_digits radix (s ++ t) = all_digits radix s && all_digits radix t.
Proof.
  induction s as [|c s IH]; cbn; [reflexivity|].
  now rewrite IH, andb_assoc.
Qed.

Lemma is_empty_append (s t : string) :
  is_empty (s ++ t) = is_empty s && is_empty t.
Proof. now destruct s. Qed.

Lemma length_append (s t : string) :
  String.length (s ++ t) = (String.length s + String.length t)%nat.
Proof. induction s as [|c s IH]; cbn; [reflexivity|now rewrite IH]. Qed.

Lemma append_empty_r (s : string) : s ++ "" = s.
Proof. induction s as [|c s IH]; cbn; [reflexivity|now rewrite IH]. Qed.

Lemma append_assoc (s t u : string) : (s ++ t) ++ u = s ++ t ++ u.
Proof. induction s as [|c s IH]; cbn; [reflexivity|now rewrite IH]. Qed.

(** *** The value of a digit string *)

Lemma value_from_app (radix acc : Z) (s t : string) :
  value_from radix acc (s ++ t) = value_from radix (value_from radix acc s) t.
Proof. revert acc. induction s as [|c s IH]; intros acc; cbn; auto. Qed.

Lemma value_from_shift (radix acc : Z) (s : string) :
  value_from radix acc s
  = acc * radix ^ Z.of_nat (String.length s) + value_from radix 0 s.
Proof.
  revert acc. induction s as [|c s IH]; intros acc.
  - cbn. lia.
  - cbn [value_from String.length]. rewrite IH, (IH (0 * radix + _)).
    rewrite Nat2Z.inj_succ, Z.pow_succ_r by lia. ring.
Qed.

Lemma decimal_value_app (s t : string) :
  decimal_value (s ++ t)
  = decimal_value s * 10 ^ Z.of_nat (String.length t) + decimal_value t.
Proof.
  unfold decimal_value. rewrite value_from_app. apply value_from_shift.
Qed.

Lemma all_digits_zeros (n : nat) : all_digits 10 (zeros n) = true.
Proof. induction n; cbn; auto. Qed.

Lemma length_zeros (n : nat) : String.length (zeros n) = n.
Proof. induction n; cbn; auto. Qed.

Lemma decimal_value_zeros (n : nat) : decimal_value (zeros n) = 0.
Proof. unfold decimal_value. induction n; cbn; auto. Qed.

Lemma digit_value_nonneg (c : ascii) : 0 <= digit_value c.
Proof.
  unfold digit_value.
  destruct (Z.leb_spec 48 (code c)), (Z.leb_spec (code c) 57); cbn [andb];
    try lia;
    destruct (Z.leb_spec 97 (code c)), (Z.leb_spec (code c) 102); cbn [andb];
    try lia;
    destruct (Z.leb_spec 65 (code c)), (Z.leb_spec (code c) 70); cbn [andb];
    lia.
Qed.

Lemma value_from_bound (s : string) (acc : Z) :
  all_digits 10 s = true -> 0 <= acc ->
  0 <= value_from 10 acc s < (acc + 1) * 10 ^ Z.of_nat (String.length s).
Proof.
  revert acc. induction s as [|c s IH]; intros acc Hall Hacc.
  - cbn. lia.
  - cbn [all_digits] in Hall. apply andb_true_iff in Hall.
    destruct Hall as [Hc Hs]. apply Z.ltb_lt in Hc.
    pose proof (digit_value_nonneg c) as Hc0.
    cbn [value_from String.length].
    specialize (IH (acc * 10 + digit_value c) Hs ltac:(lia)).
    rewrite Nat2Z.inj_succ, Z.pow_succ_r by lia.
    pose proof (pow10_pos (Z.of_nat (String.length s)) ltac:(lia)).
    nia.
Qed.

(** A string of [k] digits writes a number below [10^k]. *)
Lemma decimal_value_bound (s : string) :
  all_digits 10 s = true ->
  0 <= decimal_value s < 10 ^ Z.of_nat (String.length s).
Proof.
  intros H. pose proof (value_from_bound s 0 H ltac:(lia)) as Hb.
  unfold decimal_value. lia.
Qed.

Lemma decimal_value_app_ge (s t : string) :
  all_digits 10 s = true -> all_digits 10 t = true ->
  decimal_value s <= decimal_value (s ++ t)
  /\ decimal_value t <= decimal_value (s ++ t).
Proof.
  intros Hs Ht. rewrite decimal_value_app.
  pose proof (decimal_value_bound s Hs) as [Hs0 _].
  pose proof (decimal_value_bound t Ht) as [Ht0 _].
  assert (0 < 10 ^ Z.of_nat (String.length t))
    by (apply Z.pow_pos_nonneg; lia).
  split; nia.
Qed.

(** *** [digits_of] *)

Lemma digits_aux_acc (fuel : nat) (n : Z) (acc : string) :
  digits_aux fuel n acc = digits_aux fuel n "" ++ acc.
Proof.
  revert n acc. induction fuel as [|fuel IH]; intros n acc; cbn.
  - reflexivity.
  - destruct (n <? 10); [reflexivity|].
    rewrite IH, (IH _ (String _ "")), append_assoc. reflexivity.
Qed.

Lemma digits_aux_step (fuel : nat) (n : Z) :
  digits_aux (S fuel) n ""
  = if n <? 10 then String (digit_char (n mod 10)) ""
    else digits_aux fuel (n / 10) "" ++ String (digit_char (n mod 10)) "".
Proof. cbn. destruct (n <? 10); [reflexivity|apply digits_aux_acc]. Qed.

Lemma digits_aux_nonempty (fuel : nat) (n : Z) :
  is_empty (digits_aux (S fuel) n "") = false.
Proof.
  rewrite digits_aux_step. destruct (n <? 10); [reflexivity|].
  rewrite is_empty_append. now rewrite andb_false_r.
Qed.

Lemma digits_aux_all_digits (fuel : nat) (n : Z) :
  0 <= n -> all_digits 10 (digits_aux fuel n "") = true.
Proof.
  revert n. induction fuel as [|fuel IH]; intros n Hn; [reflexivity|].
  assert (Hd : is_digit (digit_char (n mod 10)) = true).
  { apply digit_char_spec. apply Z.mod_pos_bound. lia. }
  rewrite digits_aux_step. destruct (n <? 10).
  - cbn. now rewrite is_digit_value, Hd.
  - rewrite all_digits_app, IH by (apply Z.div_pos; lia).
    cbn. now rewrite is_digit_value, Hd.
Qed.

(** With enough fuel the digits read back as the number. *)
Lemma digits_aux_value (fuel : nat) (n : Z) :
  0 <= n < 10 ^ Z.of_nat fuel ->
  decimal_value (digits_aux fuel n "") = n.
Proof.
  revert n. induction fuel as [|fuel IH]; intros n Hn.
  - cbn in Hn. cbn. lia.
  - assert (Hd : digit_value (digit_char (n mod 10)) = n mod 10).
    { apply digit_char_spec. apply Z.mod_pos_bound. lia. }
    rewrite digits_aux_step. destruct (Z.ltb_spec n 10) as [Hlt|Hge].
    + unfold decimal_value. cbn. rewrite Hd. rewrite Z.mod_small; lia.
    + rewrite decimal_value_app, IH.
      * unfold decimal_value at 1. cbn. rewrite Hd.
        pose proof (Z.div_mod n 10). lia.
      * rewrite Nat2Z.inj_succ, Z.pow_succ_r in Hn by lia.
        split; [apply Z.div_pos; lia|].
        apply Z.div_lt_upper_bound; lia.
Qed.

(** The digits of a number below [10^k] are at most [k]. *)
Lemma digits_aux_length (fuel : nat) (n : Z) (k : nat) :
  (1 <= k)%nat -> 0 <= n < 10 ^ Z.of_nat k ->
  (String.length (digits_aux fuel n "") <= k)%nat.
Proof.
  revert n k. induction fuel as [|fuel IH]; intros n k Hk Hn; [cbn; lia|].
  rewrite digits_aux_step. destruct (Z.ltb_spec n 10) as [Hlt|Hge].
  - cbn. lia.
  - rewrite length_append. cbn [String.length].
    destruct k as [|[|k]]; [lia| cbn in Hn; lia |].
    specialize (IH (n / 10) (S k)).
    rewrite (Nat2Z.inj_succ (S k)), Z.pow_succ_r in Hn by lia.
    assert (n / 10 < 10 ^ Z.of_nat (S k))
      by (apply Z.div_lt_upper_bound; lia).
    assert (0 <= n / 10) by (apply Z.div_pos; lia).
    assert ((String.length (digits_aux fuel (n / 10) "") <= S k)%nat)
      by (apply IH; lia).
    lia.
Qed.

Lemma digits_fuel_enough (n : Z) :
  0 <= n -> n < 10 ^ Z.of_nat (S (Z.to_nat (Z.log2 n))).
Proof.
  intros Hn. rewrite Nat2Z.inj_succ, Z2Nat.id by apply Z.log2_nonneg.
  destruct (Z.eq_dec n 0) as [->|Hne]; [reflexivity|].
  pose proof (Z.log2_spec n ltac:(lia)) as [_ Hlog].
  eapply Z.lt_le_trans; [exact Hlog|].
  apply Z.pow_le_mono_l. lia.
Qed.

Lemma digits_of_value (n : Z) : 0 <= n -> decimal_value (digits_of n) = n.
Proof.
  intros Hn. apply digits_aux_value. split; [lia|now apply digits_fuel_enough].
Qed.

Lemma digits_of_all_digits (n : Z) :
  0 <= n -> all_digits 10 (digits_of n) = true.
Proof. apply digits_aux_all_digits. Qed.

Lemma digits_of_nonempty (n : Z) : is_empty (digits_of n) = false.
Proof. apply digits_aux_nonempty. Qed.

Lemma digits_of_length (n : Z) (k : nat) :
  (1 <= k)%nat -> 0 <= n < 10 ^ Z.of_nat k ->
  (String.length (digits_of n) <= k)%nat.
Proof. apply digits_aux_length. Qed.

End DigitFacts.

(** ** Number to string and back *)

Section Coercions.

Lemma all_digits_is_digit (c : ascii) (s : string) :
  all_digits 10 (String c s) = true ->
  is_digit c = true /\ all_digits 10 s = true.
Proof.
  cbn. rewrite is_digit_value. apply andb_true_iff.
Qed.

Lemma span_digits_all (s : string) :
  all_digits 10 s = true -> span_digits s = (s, "").
Proof.
  induction s as [|c s IH]; [reflexivity|].
  intros H. apply all_digits_is_digit in H. destruct H as [Hc Hs].
  cbn. now rewrite Hc, (IH Hs).
Qed.

Lemma trim_end_digits (s : string) :
  all_digits 10 s = true -> trim_end s = s.
Proof.
  induction s as [|c s IH]; [reflexivity|].
  intros H. apply all_digits_is_digit in H. destruct H as [Hc Hs].
  cbn. now rewrite (is_digit_not_whitespace c Hc), (IH Hs).
Qed.

Lemma trim_digits (s : string) : all_digits 10 s = true -> trim s = s.
Proof.
  intros H. unfold trim.
  destruct s as [|c s]; [reflexivity|].
  pose proof (all_digits_is_digit c s H) as [Hc _].
  cbn [trim_start]. rewrite (is_digit_not_whitespace c Hc).
  now apply trim_end_digits.
Qed.

Lemma radix_of_prefix_digit (c : ascii) :
  is_digit c = true -> radix_of_prefix c = None.
Proof.
  intros Hc. unfold radix_of_prefix.
  now rewrite !(digit_neq c _ Hc) by reflexivity.
Qed.

Lemma parse_non_decimal_digits (s : string) :
  all_digits 10 s = true -> parse_non_decimal s = None.
Proof.
  destruct s as [|z [|p r]]; try reflexivity.
  intros H. apply all_digits_is_digit in H. destruct H as [_ H].
  apply all_digits_is_digit in H. destruct H as [Hp _].
  cbn. now rewrite (radix_of_prefix_digit p Hp).
Qed.

(** Unary [+] on a non-empty string of decimal digits is the binary64
    value nearest to its decimal value. *)
Lemma StringToNumber_digits_rounded (s : string) :
  is_empty s = false -> all_digits 10 s = true ->
  StringToNumber s = to_number (decimal_value s) 0.
Proof.
  intros Hne Hall. unfold StringToNumber.
  rewrite (trim_digits s Hall), Hne, (parse_non_decimal_digits s Hall).
  destruct s as [|c r]; [discriminate|].
  pose proof (all_digits_is_digit c r Hall) as [Hc _].
  unfold parse_decimal_literal, split_sign.
  rewrite !(digit_neq c _ Hc) by reflexivity.
  cbn [String.eqb]. rewrite (digit_neq c "I" Hc) by reflexivity.
  unfold parse_unsigned_decimal. rewrite (span_digits_all _ Hall).
  reflexivity.
Qed.

(** It is the decimal value itself when that is a binary64 value. *)
Lemma StringToNumber_digits (s : string) :
  is_empty s = false -> all_digits 10 s = true ->
  exact64 (decimal_value s) 0 = true ->
  StringToNumber s = Int (decimal_value s).
Proof.
  intros Hne Hall Hexact. rewrite StringToNumber_digits_rounded by assumption.
  now apply to_number_exact.
Qed.

(** Decimal digits that write at most [2^53] write a binary64 value. *)
Lemma exact64_digits (s : string) :
  all_digits 10 s = true -> decimal_value s <= 2 ^ 53 ->
  exact64 (decimal_value s) 0 = true.
Proof.
  intros Hall Hsafe. apply exact64_Int_le.
  pose proof (decimal_value_bound s Hall). lia.
Qed.

(** *** [toString] on the integers *)

Lemma strip_trailing_zeros_restore (s : string) :
  strip_trailing_zeros s
  ++ zeros (String.length s - String.length (strip_trailing_zeros s)) = s.
Proof.
  induction s as [|c s IH]; [reflexivity|].
  cbn [strip_trailing_zeros].
  destruct (Ascii.eqb_spec c "0") as [->|Hc]; cbn [andb].
  - destruct (strip_trailing_zeros s) as [|c' s'] eqn:Hs; cbn [is_empty].
    + cbn in IH. rewrite Nat.sub_0_r in IH. cbn. now rewrite IH.
    + cbn [String.length Nat.sub append]. cbn in IH. now rewrite IH.
  - cbn [String.length Nat.sub append]. now rewrite IH.
Qed.

Lemma strip_trailing_zeros_length (s : string) :
  (String.length (strip_trailing_zeros s) <= String.length s)%nat.
Proof.
  induction s as [|c s IH]; cbn; [lia|].
  destruct (Ascii.eqb c "0" && is_empty (strip_trailing_zeros s)); cbn; lia.
Qed.

Lemma zeros_add (a b : nat) : zeros (a + b) = zeros a ++ zeros b.
Proof. induction a as [|a IH]; cbn; [reflexivity|now rewrite IH]. Qed.

(** A decimal with an exponent that is not negative is an integer. *)
Lemma units_integer (m e : Z) : 0 <= e -> units m e = units (m * 10 ^ e) 0.
Proof.
  intros He. unfold units.
  assert (0 < 10 ^ e) by (apply pow10_pos; lia).
  rewrite Z.abs_mul, (Z.abs_eq (10 ^ e)) by lia.
  replace (Z.max e 0) with e by lia.
  replace (Z.max (- e) 0) with 0 by lia.
  change (Z.max 0 0) with 0. change (Z.max (- 0) 0) with 0.
  rewrite Z.pow_0_r. f_equal. ring.
Qed.

Lemma exact64_integer (m e : Z) :
  0 <= e -> exact64 m e = exact64 (m * 10 ^ e) 0.
Proof. intros He. unfold exact64. now rewrite units_integer. Qed.

Lemma compare_Fin_Int (m e g : Z) :
  0 <= e -> compare (Fin m e) (Int g) = Some (m * 10 ^ e ?= g).
Proof.
  intros He. unfold Int. rewrite (compare_Fin_at m e g 0 0) by lia.
  unfold scale. now rewrite !Z.sub_0_r, Z.pow_0_r, Z.mul_1_r.
Qed.

(** Rounding an integer at or above a binary64 value [g] gives at least
    [g]. *)
Lemma round64_ge (g m e : Z) :
  0 <= e -> 0 <= g -> exact64 g 0 = true -> g <= m * 10 ^ e ->
  ge (round64 m e) (Int g) = true.
Proof.
  intros He Hg Hexact Hle.
  assert (Hp : 0 < 10 ^ e) by (apply pow10_pos; lia).
  assert (Hm : 0 <= m) by nia.
  unfold exact64 in Hexact. unfold round64. rewrite units_integer by exact He.
  unfold units in *.
  change (Z.max 0 0) with 0 in *. change (Z.max (- 0) 0) with 0 in *.
  rewrite Z.pow_0_r, Z.mul_1_r in *.
  rewrite (Z.abs_eq g) in Hexact by lia.
  rewrite (Z.abs_eq (m * 10 ^ e)) by lia.
  set (A := 2 ^ 1074) in *.
  assert (HA : 0 < A) by (subst A; apply pow2_pos; lia).
  pose proof (round_above (m * 10 ^ e * A) (g * A) 1 ltac:(lia)
                ltac:(nia)) as Habove.
  destruct (round_magnitude (g * A) 1) as [ng sg].
  apply andb_true_iff in Hexact. destruct Hexact as [_ Hgrid].
  apply Z.eqb_eq in Hgrid. specialize (Habove Hgrid).
  destruct (round_magnitude (m * 10 ^ e * A) 1) as [n s] eqn:Hw.
  cbn [fst snd] in Habove.
  assert (Hs : 0 <= s).
  { replace s with (snd (round_magnitude (m * 10 ^ e * A) 1))
      by now rewrite Hw.
    apply ulp_exponent_nonneg. }
  destruct (Z.ltb_spec m 0); [lia|].
  destruct (_ <=? _); [reflexivity|].
  apply ge_of_compare.
  destruct (_ =? _).
  - rewrite compare_antisym, compare_Fin_Int by exact He.
    cbn [option_map]. rewrite <- Z.compare_antisym.
    destruct (Z.compare_spec g (m * 10 ^ e)); auto; lia.
  - unfold Int. rewrite compare_Fin_spell by exact Hs.
    change (Z.min 0 0) with 0. unfold scale. cbn [Z.opp].
    rewrite Z.sub_diag, !Z.pow_0_r, !Z.mul_1_r. fold A.
    destruct (Z.compare_spec (g * A) (n * 2 ^ s)); auto; lia.
Qed.

(** A decimal that denotes an integer Number below a binary64 bound is
    below the bound. *)
Lemma reads_as_below (g m' e' a : Z) :
  0 <= e' -> 0 <= g -> exact64 g 0 = true -> a < g ->
  reads_as m' e' a 0 = true -> m' * 10 ^ e' < g.
Proof.
  intros He Hg Hexact Ha Hreads.
  destruct (Z.lt_ge_cases (m' * 10 ^ e') g) as [Hlt|Hge]; [exact Hlt|].
  exfalso.
  pose proof (round64_ge g m' e' He Hg Hexact Hge) as Hround.
  assert (Hlt : lt (Int a) (Int g) = true)
    by (rewrite lt_Int; now apply Z.ltb_lt).
  pose proof (lt_ge_trans _ _ _ Hlt Hround) as Hbelow.
  unfold reads_as, strict_eq in Hreads. unfold lt in Hbelow.
  fold (Int a) in Hreads.
  rewrite (compare_antisym (Int a)) in Hreads.
  destruct (compare (Int a) (round64 m' e')) as [[]|]; discriminate.
Qed.

(** A decimal that denotes an integer of at most 53 bits is that
    integer. *)
Lemma reads_as_safe (m' e' z : Z) :
  0 <= e' -> Z.abs z < 2 ^ 53 -> 0 <= m' ->
  reads_as m' e' z 0 = true -> m' * 10 ^ e' = z.
Proof.
  intros He Hz Hm Hreads.
  assert (Hp : 0 < 10 ^ e') by (apply pow10_pos; lia).
  assert (Hbelow : m' * 10 ^ e' < 2 ^ 53).
  { apply (reads_as_below (2 ^ 53) m' e' z);
      [exact He | apply Z.pow_nonneg; lia | reflexivity | lia
      | exact Hreads]. }
  unfold reads_as in Hreads.
  rewrite round64_exact in Hreads
    by (rewrite exact64_integer by exact He; apply exact64_Int; nia).
  unfold strict_eq in Hreads. fold (Int z) in Hreads.
  rewrite compare_Fin_Int in Hreads by exact He.
  destruct (Z.compare_spec (m' * 10 ^ e') z); try discriminate. assumption.
Qed.

(** What a candidate is, when there is one: a decimal with fewer digits and
    another value that denotes the same Number. *)
Lemma candidate_spec (m e k m' e' : Z) :
  0 <= m -> candidate m e k = Some (m', e') ->
  e < e' /\ 0 <= m' /\ m' * 10 ^ (e' - e) <> m
  /\ reads_as m' e' m e = true.
Proof.
  intros Hm. unfold candidate.
  set (d := Z.of_nat (String.length (digits_of m)) - k).
  destruct (Z.leb_spec d 0) as [|Hd]; [discriminate|]. cbn [orb].
  destruct (Z.eqb_spec (m mod 10 ^ d) 0) as [|Hr]; [discriminate|].
  assert (Hp : 0 < 10 ^ d) by (apply pow10_pos; lia).
  assert (Hlo : 0 <= m / 10 ^ d) by (apply Z.div_pos; lia).
  pose proof (Z.div_mod m (10 ^ d) ltac:(lia)) as Hdm.
  pose proof (Z.mod_pos_bound m (10 ^ d) Hp) as Hrem.
  destruct (reads_as (m / 10 ^ d) (e + d) m e) eqn:Hlow;
    destruct (reads_as (m / 10 ^ d + 1) (e + d) m e) eqn:Hhigh;
    cbn [andb negb orb]; rewrite ?orb_true_r, ?orb_false_r;
    repeat match goal with |- context [if ?b then _ else _] => destruct b end;
    intros [= <- <-]; replace (e + d - e) with d by lia;
    (split; [lia|split; [lia|split; [nia|assumption]]]).
Qed.

Lemma shortest_from_spec (fuel : nat) (k m e m' e' : Z) :
  0 <= m -> shortest_from fuel k m e = (m', e') ->
  (m', e') = (m, e)
  \/ (e < e' /\ 0 <= m' /\ m' * 10 ^ (e' - e) <> m
      /\ reads_as m' e' m e = true).
Proof.
  intros Hm. revert k. induction fuel as [|fuel IH]; intros k; cbn.
  - intros [= <- <-]. now left.
  - destruct (candidate m e k) as [[m1 e1]|] eqn:Hc.
    + intros [= <- <-]. right. now apply (candidate_spec m e k).
    + apply IH.
Qed.

(** No decimal with fewer digits denotes an integer of at most 53 bits. *)
Lemma shortest_safe (z : Z) :
  0 <= z < 2 ^ 53 -> shortest z 0 = (z, 0).
Proof.
  intros Hz. destruct (shortest z 0) as [m' e'] eqn:Hs.
  destruct (shortest_from_spec 17 1 z 0 m' e' ltac:(lia) Hs)
    as [H|(He & Hm & Hne & Hreads)]; [exact H|].
  exfalso. rewrite Z.sub_0_r in Hne. apply Hne.
  apply reads_as_safe; (lia || assumption).
Qed.

(** The text of an integer below [10^21]. *)
Lemma toString_pos_integer (m e : Z) :
  0 < m -> 0 <= e -> m * 10 ^ e < 10 ^ 21 ->
  toString_pos m e = digits_of m ++ zeros (Z.to_nat e).
Proof.
  intros Hm He Hlt. unfold toString_pos.
  pose proof (strip_trailing_zeros_length (digits_of m)) as Hk.
  assert (He21 : e <= 20).
  { destruct (Z.le_gt_cases e 20) as [|Hbig]; [assumption|exfalso].
    assert (10 ^ 21 <= 10 ^ e) by (apply Z.pow_le_mono_r; lia). nia. }
  assert (Hm' : m < 10 ^ Z.of_nat (Z.to_nat (21 - e))).
  { rewrite Z2Nat.id by lia.
    assert (Hsplit : 10 ^ 21 = 10 ^ (21 - e) * 10 ^ e)
      by (rewrite <- Z.pow_add_r by lia; f_equal; lia).
    assert (0 < 10 ^ e) by (apply pow10_pos; lia).
    rewrite Hsplit in Hlt. nia. }
  pose proof (digits_of_length m (Z.to_nat (21 - e)) ltac:(lia)
                ltac:(lia)) as Hn.
  replace (_ <=? _) with true by (symmetry; apply Z.leb_le; lia).
  replace (_ <=? 21) with true by (symmetry; apply Z.leb_le; lia).
  cbn [andb].
  replace (Z.to_nat (Z.of_nat (String.length (digits_of m)) + e
                     - Z.of_nat (String.length
                                   (strip_trailing_zeros (digits_of m)))))
    with ((String.length (digits_of m)
           - String.length (strip_trailing_zeros (digits_of m)))
          + Z.to_nat e)%nat by lia.
  rewrite zeros_add, <- append_assoc.
  now rewrite strip_trailing_zeros_restore.
Qed.

Lemma toString_Int (z : Z) :
  0 <= z <= 2 ^ 53 -> toString (Int z) = digits_of z.
Proof.
  intros Hz. destruct (Z.eq_dec z (2 ^ 53)) as [->|Hne].
  { vm_compute. reflexivity. }
  unfold Int, toString, toString_abs.
  destruct (Z.eqb_spec z 0) as [->|Hpos]; [reflexivity|].
  destruct (Z.ltb_spec z 0); [lia|].
  rewrite shortest_safe by lia.
  assert (Hwide : 2 ^ 53 < 10 ^ 21) by reflexivity.
  rewrite toString_pos_integer by lia.
  cbn [Z.to_nat zeros]. apply append_empty_r.
Qed.

(** To read an integer that denotes a Number gives that Number. *)
Lemma round64_reads (m' e' a : Z) :
  0 <= e' -> reads_as m' e' a 0 = true ->
  round64 (m' * 10 ^ e') 0 = Int a.
Proof.
  intros He. unfold reads_as, round64.
  rewrite (units_integer m' e' He).
  assert (Hp : 0 < 10 ^ e') by (apply pow10_pos; lia).
  assert (Hsign : (m' * 10 ^ e' <? 0) = (m' <? 0)).
  { destruct (Z.ltb_spec m' 0), (Z.ltb_spec (m' * 10 ^ e') 0);
      try reflexivity; nia. }
  rewrite Hsign.
  unfold units. change (Z.max 0 0) with 0. change (Z.max (- 0) 0) with 0.
  rewrite Z.pow_0_r, Z.mul_1_r.
  set (X := Z.abs (m' * 10 ^ e') * 2 ^ 1074).
  destruct (round_magnitude X 1) as [n s] eqn:Hw.
  assert (Hs : s = ulp_exponent (X / 1))
    by (unfold round_magnitude in Hw; now injection Hw).
  assert (Hn : n = rne_div X (2 ^ s * 1))
    by (unfold round_magnitude in Hw; rewrite Hs; now injection Hw).
  destruct (_ <=? _); [destruct (m' <? 0); discriminate|].
  destruct (Z.eqb_spec X (n * (2 ^ s * 1))) as [Hgrid|Hoff].
  - unfold strict_eq. fold (Int a). rewrite compare_Fin_Int by exact He.
    destruct (Z.compare_spec (m' * 10 ^ e') a); try discriminate.
    intros _. now subst a.
  - unfold spell. destruct (Z.leb_spec 1074 s) as [Hbig|Hsmall].
    + unfold strict_eq. fold (Int a).
      fold (Int ((if m' <? 0 then - n else n) * 2 ^ (s - 1074))).
      rewrite compare_Int.
      destruct (Z.compare_spec ((if m' <? 0 then - n else n)
                                * 2 ^ (s - 1074)) a); try discriminate.
      intros _. now subst a.
    + exfalso. apply Hoff.
      assert (Hs0 : 0 <= s) by (rewrite Hs; apply ulp_exponent_nonneg).
      assert (Hsplit : 2 ^ 1074 = 2 ^ (1074 - s) * 2 ^ s)
        by (rewrite <- Z.pow_add_r by lia; f_equal; lia).
      assert (H2 : 0 < 2 ^ s) by (apply pow2_pos; lia).
      assert (HX : X = Z.abs (m' * 10 ^ e') * 2 ^ (1074 - s) * (2 ^ s * 1))
        by (subst X; rewrite Hsplit; ring).
      assert (Hr : rne_div X (2 ^ s * 1)
                   = Z.abs (m' * 10 ^ e') * 2 ^ (1074 - s))
        by (rewrite HX; apply rne_div_exact; lia).
      rewrite Hn, Hr. exact HX.
Qed.

(** The text of a Number that is an integer below [10^21] is a string of
    digits that reads back as the Number. *)
Lemma toString_Int_reads (a : Z) :
  0 <= a < 10 ^ 21 -> exact64 a 0 = true ->
  is_empty (toString (Int a)) = false
  /\ all_digits 10 (toString (Int a)) = true
  /\ StringToNumber (toString (Int a)) = Int a.
Proof.
  intros Ha Hexact. unfold Int, toString, toString_abs.
  destruct (Z.eqb_spec a 0) as [->|Hpos]; [now vm_compute|].
  destruct (Z.ltb_spec a 0); [lia|].
  destruct (shortest a 0) as [m' e'] eqn:Hs.
  destruct (shortest_from_spec 17 1 a 0 m' e' ltac:(lia) Hs)
    as [[= -> ->]|(He & Hm & Hne & Hreads)].
  - rewrite toString_pos_integer by lia.
    cbn [Z.to_nat zeros]. rewrite append_empty_r.
    split; [apply digits_of_nonempty|].
    split; [apply digits_of_all_digits; lia|].
    rewrite StringToNumber_digits;
      rewrite ?digits_of_value by lia;
      (reflexivity || assumption || apply digits_of_nonempty
       || (apply digits_of_all_digits; lia)).
  - assert (Hbelow : m' * 10 ^ e' < 10 ^ 21).
    { apply (reads_as_below (10 ^ 21) m' e' a);
        [lia | apply Z.pow_nonneg; lia | now vm_compute | lia
        | exact Hreads]. }
    assert (Hp : 0 < 10 ^ e') by (apply pow10_pos; lia).
    assert (Hm' : 0 < m').
    { destruct (Z.eq_dec m' 0) as [->|]; [|lia]. exfalso.
      pose proof (round64_reads 0 e' a ltac:(lia) Hreads) as H0.
      rewrite Z.mul_0_l in H0. vm_compute in H0. injection H0. lia. }
    rewrite toString_pos_integer by lia.
    assert (Hall : all_digits 10 (digits_of m' ++ zeros (Z.to_nat e')) = true)
      by (rewrite all_digits_app, digits_of_all_digits, all_digits_zeros;
          [reflexivity|lia]).
    assert (Hne' : is_empty (digits_of m' ++ zeros (Z.to_nat e')) = false)
      by (rewrite is_empty_append, digits_of_nonempty; reflexivity).
    split; [exact Hne'|]. split; [exact Hall|].
    rewrite StringToNumber_digits_rounded by assumption.
    rewrite decimal_value_app, decimal_value_zeros, length_zeros,
      digits_of_value, Z2Nat.id, Z.add_0_r by lia.
    unfold to_number.
    destruct (Z.eqb_spec (m' * 10 ^ e') 0); [nia|].
    cbn [Z.ltb Z.compare andb].
    apply round64_reads; [lia|exact Hreads].
Qed.

(** *** [padStart(2, 0)] *)

Lemma repeat_fill_zero (n : nat) (cur : string) :
  cur = "" \/ cur = "0" -> repeat_fill n "0" cur = zeros n.
Proof.
  revert cur. induction n as [|n IH]; intros cur Hcur; [reflexivity|].
  destruct Hcur as [-> | ->]; cbn; now rewrite IH by auto.
Qed.

Lemma padStart_zero (s : string) (n : nat) :
  padStart s n "0" = zeros (n - String.length s) ++ s.
Proof.
  unfold padStart. destruct (Nat.leb_spec n (String.length s)) as [H|H].
  - now replace (n - String.length s)%nat with 0%nat by lia.
  - cbn [is_empty]. now rewrite repeat_fill_zero by auto.
Qed.

Lemma padStart_2_0 (s : string) : padStart s 2 (toString (Int 0)) = pad2 s.
Proof. apply padStart_zero. Qed.

Lemma pad2_all_digits (s : string) :
  all_digits 10 s = true -> all_digits 10 (pad2 s) = true.
Proof.
  intros H. unfold pad2. now rewrite all_digits_app, all_digits_zeros, H.
Qed.

Lemma pad2_value (s : string) : decimal_value (pad2 s) = decimal_value s.
Proof.
  unfold pad2. rewrite decimal_value_app, decimal_value_zeros. lia.
Qed.

Lemma pad2_nonempty (s : string) :
  is_empty s = false -> is_empty (pad2 s) = false.
Proof.
  intros H. unfold pad2. rewrite is_empty_append, H. apply andb_false_r.
Qed.

End Coercions.

(** ** The version code *)

Section VersionCode.

(** Up to [2^53] the text the encoder converts is the padded decimal
    text. *)
Lemma versionToVersionCode_text (a b c d : Z) :
  0 <= a <= 2 ^ 53 -> 0 <= b <= 2 ^ 53 ->
  0 <= c <= 2 ^ 53 -> 0 <= d <= 2 ^ 53 ->
  versionToVersionCode (version_of a b c d)
  = StringToNumber (padded_text a b c d).
Proof.
  intros Ha Hb Hc Hd. unfold versionToVersionCode, version_of, padded_text.
  cbn [major minor patch build].
  now rewrite !padStart_2_0, !toString_Int by assumption.
Qed.

Lemma padded_text_digits (a b c d : Z) :
  0 <= a -> 0 <= b -> 0 <= c -> 0 <= d ->
  is_empty (padded_text a b c d) = false
  /\ all_digits 10 (padded_text a b c d) = true.
Proof.
  intros Ha Hb Hc Hd. unfold padded_text. split.
  - rewrite is_empty_append, pad2_nonempty by apply digits_of_nonempty.
    reflexivity.
  - rewrite !all_digits_app, !pad2_all_digits
      by (apply digits_of_all_digits; lia).
    reflexivity.
Qed.

Lemma pad2_length_small (z : Z) :
  0 <= z <= 99 -> String.length (pad2 (digits_of z)) = 2%nat.
Proof.
  intros Hz. unfold pad2. rewrite length_append, length_zeros.
  pose proof (digits_of_length z 2 ltac:(lia) ltac:(cbn; lia)).
  pose proof (digits_of_nonempty z).
  destruct (digits_of z); [discriminate|].
  cbn [String.length] in *. lia.
Qed.

(** With every field in [0, 99] the code is the base-100 numeral. *)
Lemma spec_encode_small (a b c d : Z) :
  0 <= a <= 99 -> 0 <= b <= 99 -> 0 <= c <= 99 -> 0 <= d <= 99 ->
  spec_encode a b c d = a * 1000000 + b * 10000 + c * 100 + d.
Proof.
  intros Ha Hb Hc Hd. unfold spec_encode, padded_text.
  rewrite !decimal_value_app, !length_append, !pad2_length_small by assumption.
  rewrite !pad2_value, !digits_of_value by lia.
  cbn. lia.
Qed.

(** When the padded decimal text writes a binary64 value, the code is that
    value. *)
Lemma versionToVersionCode_exact (a b c d : Z) :
  0 <= a <= 2 ^ 53 -> 0 <= b <= 2 ^ 53 ->
  0 <= c <= 2 ^ 53 -> 0 <= d <= 2 ^ 53 ->
  exact64 (spec_encode a b c d) 0 = true ->
  versionToVersionCode (version_of a b c d) = Int (spec_encode a b c d).
Proof.
  intros Ha Hb Hc Hd Hexact. rewrite versionToVersionCode_text by assumption.
  apply StringToNumber_digits; [apply padded_text_digits; lia ..|exact Hexact].
Qed.

(** With every field in [0, 99] the code is the base-100 numeral. *)
Lemma versionToVersionCode_small (a b c d : Z) :
  0 <= a <= 99 -> 0 <= b <= 99 -> 0 <= c <= 99 -> 0 <= d <= 99 ->
  versionToVersionCode (version_of a b c d)
  = Int (a * 1000000 + b * 10000 + c * 100 + d).
Proof.
  intros Ha Hb Hc Hd.
  rewrite versionToVersionCode_exact
    by (safe_integers || (rewrite spec_encode_small by assumption;
                          apply exact64_Int; safe_integers)).
  now rewrite spec_encode_small.
Qed.

(** Each field is at most the integer the padded text writes. *)
Lemma spec_encode_fields (a b c d : Z) :
  0 <= a -> 0 <= b -> 0 <= c -> 0 <= d ->
  a <= spec_encode a b c d /\ b <= spec_encode a b c d
  /\ c <= spec_encode a b c d /\ d <= spec_encode a b c d.
Proof.
  intros Ha Hb Hc Hd. unfold spec_encode, padded_text.
  assert (Hp : forall z, 0 <= z -> all_digits 10 (pad2 (digits_of z)) = true)
    by (intros z Hz; now apply pad2_all_digits, digits_of_all_digits).
  assert (Hv : forall z, 0 <= z -> decimal_value (pad2 (digits_of z)) = z)
    by (intros z Hz; now rewrite pad2_value, digits_of_value).
  pose proof (decimal_value_app_ge (pad2 (digits_of c)) (pad2 (digits_of d))
                (Hp c Hc) (Hp d Hd)) as [Hc1 Hd1].
  pose proof (decimal_value_app_ge (pad2 (digits_of b))
                (pad2 (digits_of c) ++ pad2 (digits_of d)) (Hp b Hb)
                ltac:(now rewrite all_digits_app, !Hp)) as [Hb2 Hrest2].
  pose proof (decimal_value_app_ge (pad2 (digits_of a))
                (pad2 (digits_of b) ++ pad2 (digits_of c)
                 ++ pad2 (digits_of d)) (Hp a Ha)
                ltac:(now rewrite !all_digits_app, !Hp)) as [Ha3 Hrest3].
  rewrite !Hv in * by assumption. lia.
Qed.

End VersionCode.

(** C5. On descriptors whose four fields are integers in [0, 99],
    [versionToVersionCode] is injective, and its codes are ordered as the
    tuples (major, minor, patch, build) are in the lexicographic order. *)
Theorem versionToVersionCode_injective_ordered (a b c d a' b' c' d' : Z) :
  0 <= a <= 99 -> 0 <= b <= 99 -> 0 <= c <= 99 -> 0 <= d <= 99 ->
  0 <= a' <= 99 -> 0 <= b' <= 99 -> 0 <= c' <= 99 -> 0 <= d' <= 99 ->
  (versionToVersionCode (version_of a b c d)
     = versionToVersionCode (version_of a' b' c' d')
   -> a = a' /\ b = b' /\ c = c' /\ d = d')
  /\ (strict_eq (versionToVersionCode (version_of a b c d))
                (versionToVersionCode (version_of a' b' c' d')) = true
      <-> a = a' /\ b = b' /\ c = c' /\ d = d')
  /\ (lt (versionToVersionCode (version_of a b c d))
         (versionToVersionCode (version_of a' b' c' d')) = true
      <-> lex_lt a b c d a' b' c' d').
Proof.
  intros Ha Hb Hc Hd Ha' Hb' Hc' Hd'.
  rewrite !versionToVersionCode_small by assumption.
  rewrite strict_eq_Int, lt_Int, Z.eqb_eq, Z.ltb_lt.
  unfold lex_lt, Int. split; [|split].
  - intros [= H]. lia.
  - split; intros H; lia.
  - split; intros H; lia.
Qed.

Lemma versionToVersionCode_injective_ordered_witness :
  lt (versionToVersionCode (version_of 1 2 3 99))
     (versionToVersionCode (version_of 1 2 4 0)) = true.
Proof.
  apply (versionToVersionCode_injective_ordered 1 2 3 99 1 2 4 0);
    unfold lex_lt; lia.
Defined.

(** C6, as the code has it. For a descriptor whose fields are non-negative
    integers and whose four fields, written in decimal, each left-padded
    with zeros to at least two digits and joined in the order major, minor,
    patch, build, write an integer of at most [2^53],
    [versionToVersionCode] is that integer. Fields of three digits and more
    keep all their digits. *)
Theorem versionToVersionCode_refines_spec (a b c d : Z) :
  0 <= a -> 0 <= b -> 0 <= c -> 0 <= d ->
  spec_encode a b c d <= 2 ^ 53 ->
  versionToVersionCode (version_of a b c d) = Int (spec_encode a b c d).
Proof.
  intros Ha Hb Hc Hd Hsafe.
  pose proof (spec_encode_fields a b c d Ha Hb Hc Hd)
    as (Ha' & Hb' & Hc' & Hd').
  apply versionToVersionCode_exact; try lia.
  apply exact64_Int_le. lia.
Qed.

(** The example of C6, [encode({1,2,3,4}) = 1020304], and a descriptor with
    a field of three digits. *)
Lemma versionToVersionCode_refines_spec_witness :
  versionToVersionCode (version_of 1 2 3 4) = Int 1020304
  /\ versionToVersionCode (version_of 100 2 3 4) = Int 100020304.
Proof.
  split.
  - apply (versionToVersionCode_refines_spec 1 2 3 4);
      [lia | lia | lia | lia | vm_compute; discriminate].
  - apply (versionToVersionCode_refines_spec 100 2 3 4);
      [lia | lia | lia | lia | vm_compute; discriminate].
Defined.

(** C6, as stated, fails on the code. The fields 2024, 1231, 2359 and 59999
    write the 17 digits 20241231235959999, an integer above [2^53] that is
    no binary64 value: unary [+] rounds it, and the code is
    20241231235960000. *)
Lemma versionToVersionCode_rounds :
  padded_text 2024 1231 2359 59999 = "20241231235959999"
  /\ spec_encode 2024 1231 2359 59999 = 20241231235959999
  /\ versionToVersionCode (version_of 2024 1231 2359 59999)
     = Int 20241231235960000
  /\ strict_eq (versionToVersionCode (version_of 2024 1231 2359 59999))
               (Int (spec_encode 2024 1231 2359 59999)) = false.
Proof. evaluate. Qed.

(** From [10^21] on the fields are no longer written in plain digits: with
    major [10^21], [toString] writes ["1e+21"], the text converted is
    ["1e+21000000"], and the code is [Infinity], not the integer [10^27] of
    the specification. *)
Lemma versionToVersionCode_exponent_notation :
  toString (Int (10 ^ 21)) = "1e+21"
  /\ versionToVersionCode (version_of (10 ^ 21) 0 0 0)
     = StringToNumber "1e+21000000"
  /\ spec_encode (10 ^ 21) 0 0 0 = 10 ^ 27
  /\ versionToVersionCode (version_of (10 ^ 21) 0 0 0) = Infinity false.
Proof. evaluate. Qed.

(** ** The parser *)

Section Parser.

Lemma field_versionStringToVersion (versionString : string) (i : nat) :
  (i < 4)%nat ->
  field i (versionStringToVersion versionString)
  = StringToNumber
      (trimText (or_default (nth_error (split "." versionString) i)
                            (default_token i))).
Proof.
  intros Hi. destruct i as [|[|[|[|i]]]]; try reflexivity. lia.
Qed.

Lemma search_non_digit_span (s : string) :
  search_non_digit s
  = if is_empty (snd (span_digits s)) then -1
    else Z.of_nat (String.length (fst (span_digits s))).
Proof.
  induction s as [|c s IH]; [reflexivity|].
  cbn [search_non_digit span_digits]. destruct (is_digit c); [|reflexivity].
  rewrite IH. destruct (span_digits s) as [d t]. cbn [fst snd].
  destruct (is_empty t); [reflexivity|].
  destruct (Z.ltb_spec (Z.of_nat (String.length d)) 0); [lia|].
  cbn [String.length]. lia.
Qed.

Lemma substring_span (s : string) :
  String.substring 0 (String.length (fst (span_digits s))) s
  = fst (span_digits s).
Proof.
  induction s as [|c s IH]; [reflexivity|].
  cbn [span_digits]. destruct (is_digit c); [|reflexivity].
  destruct (span_digits s) as [d t]. cbn [fst] in *.
  cbn. now rewrite IH.
Qed.

Lemma span_digits_all_digits (s : string) :
  all_digits 10 (fst (span_digits s)) = true.
Proof.
  induction s as [|c s IH]; [reflexivity|].
  cbn [span_digits]. destruct (is_digit c) eqn:Hc; [|reflexivity].
  destruct (span_digits s) as [d t]. cbn [fst] in *.
  cbn. now rewrite is_digit_value, Hc, IH.
Qed.

(** When the first character that is not a digit comes after a digit,
    [trimText] keeps the longest prefix of digits, which is not empty. *)
Lemma trimText_prefix (s : string) :
  0 < search_non_digit s ->
  trimText s = substring0 (search_non_digit s) s
  /\ substring0 (search_non_digit s) s = fst (span_digits s)
  /\ is_empty (fst (span_digits s)) = false.
Proof.
  intros H. unfold trimText.
  destruct (Z.ltb_spec 0 (search_non_digit s)); [|lia].
  split; [reflexivity|].
  rewrite search_non_digit_span in *.
  destruct (is_empty (snd (span_digits s))); [lia|].
  unfold substring0. rewrite Nat2Z.id. split; [apply substring_span|].
  destruct (fst (span_digits s)); [cbn in H; lia|reflexivity].
Qed.

(** The tokens of a split hold no separator. *)
Lemma split_no_separator (sep : ascii) (s token : string) :
  In token (split sep s) -> contains sep token = false.
Proof.
  revert token. induction s as [|c s IH]; intros token.
  - cbn. intros [<-|[]]. reflexivity.
  - cbn [split]. destruct (Ascii.eqb c sep) eqn:Hc.
    + intros [<-|H]; [reflexivity|now apply IH].
    + destruct (split sep s) as [|h t] eqn:Hs.
      * intros [<-|[]]. cbn. now rewrite Hc.
      * intros [<-|H].
        -- cbn. rewrite Hc. apply IH. now left.
        -- apply IH. now right.
Qed.

(** Text that begins with none of white space, a sign, a digit, a dot or
    [I] is no numeric literal. *)
Lemma StringToNumber_NaN (c : ascii) (r : string) :
  is_digit c = false -> Ascii.eqb c "." = false ->
  numeric_lead (String c r) = false ->
  StringToNumber (String c r) = NaN.
Proof.
  intros Hdigit Hdot Hlead. cbn [numeric_lead] in Hlead.
  rewrite !orb_false_iff in Hlead.
  destruct Hlead as [[[Hws Hplus] Hminus] HI].
  unfold StringToNumber, trim. cbn [trim_start]. rewrite Hws.
  cbn [trim_end]. rewrite Hws. cbn [andb is_empty].
  assert (Hnd : parse_non_decimal (String c (trim_end r)) = None).
  { unfold parse_non_decimal. destruct (trim_end r) as [|p r']; [reflexivity|].
    destruct (radix_of_prefix p); [|reflexivity].
    destruct (Ascii.eqb_spec c "0") as [->|]; [discriminate|reflexivity]. }
  rewrite Hnd. unfold parse_decimal_literal, split_sign.
  rewrite Hplus, Hminus. cbn [String.eqb]. rewrite HI. cbn [andb].
  unfold parse_unsigned_decimal. cbn [span_digits]. rewrite Hdigit.
  cbn [starts_with]. rewrite Hdot. reflexivity.
Qed.

End Parser.

Section ParserTokens.

Variables (versionString : string) (i : nat) (token : string).
Hypothesis position : (i < 4)%nat.
Hypothesis present : nth_error (split "." versionString) i = Some token.

(** A token that is not empty is the text its field is read from. *)
Lemma field_of_token :
  is_empty token = false ->
  field i (versionStringToVersion versionString)
  = StringToNumber (trimText token).
Proof.
  intros Hne. rewrite field_versionStringToVersion, present by assumption.
  destruct token; [discriminate|reflexivity].
Qed.

Lemma token_no_dot : contains "." token = false.
Proof.
  apply (split_no_separator "." versionString).
  now apply (nth_error_In _ i).
Qed.

End ParserTokens.

(** C7, as stated, fails on the code: the token ["abc"] of ["abc.1"] is not
    empty and does not begin with a digit, and its field is [NaN], not 0. *)
Lemma versionStringToVersion_abc_is_NaN :
  nth_error (split "." "abc.1") 0 = Some "abc"
  /\ search_non_digit "abc" = 0
  /\ major (versionStringToVersion "abc.1") = NaN
  /\ strict_eq (major (versionStringToVersion "abc.1")) (Int 0) = false.
Proof. repeat split. Qed.

(** C7, as the code has it. A token that is not empty and does not begin
    with a decimal digit is kept whole by [trimText], and its field is the
    numeric coercion of the whole token: [NaN] unless the token begins with
    white space, a sign or the letter [I]. [versionStringToVersion] itself is
    a total function of the string: none of its steps can throw. *)
Theorem versionStringToVersion_non_digit_token
  (versionString : string) (i : nat) (token : string) :
  (i < 4)%nat ->
  nth_error (split "." versionString) i = Some token ->
  search_non_digit token = 0 ->
  trimText token = token
  /\ field i (versionStringToVersion versionString) = StringToNumber token
  /\ (numeric_lead token = false ->
      field i (versionStringToVersion versionString) = NaN).
Proof.
  intros Hi Htoken Hsearch.
  assert (Htrim : trimText token = token)
    by (unfold trimText; now rewrite Hsearch).
  pose proof (token_no_dot versionString i token Htoken) as Hdot.
  destruct token as [|c r]; [discriminate|].
  rewrite (field_of_token versionString i _ Hi Htoken eq_refl), Htrim.
  repeat split. intros Hlead.
  cbn [search_non_digit] in Hsearch.
  destruct (is_digit c) eqn:Hdigit.
  - destruct (Z.ltb_spec (search_non_digit r) 0); lia.
  - cbn [contains] in Hdot. apply orb_false_iff in Hdot.
    now apply StringToNumber_NaN.
Qed.

Lemma versionStringToVersion_non_digit_token_witness :
  trimText "abc" = "abc"
  /\ field 0 (versionStringToVersion "abc.1") = StringToNumber "abc"
  /\ (numeric_lead "abc" = false ->
      field 0 (versionStringToVersion "abc.1") = NaN).
Proof.
  apply (versionStringToVersion_non_digit_token "abc.1" 0 "abc");
    [lia | reflexivity | reflexivity].
Defined.

(** C8, as stated, fails on the code. The token ["9007199254740993-rc"] has
    its first character that is not a digit at position 16; the digits
    before it write [2^53 + 1], which is no binary64 value, and the field
    is [2^53]. *)
Lemma versionStringToVersion_digit_prefix_rounds :
  nth_error (split "." "2.9007199254740993-rc.4") 1
  = Some "9007199254740993-rc"
  /\ search_non_digit "9007199254740993-rc" = 16
  /\ trimText "9007199254740993-rc" = "9007199254740993"
  /\ decimal_value "9007199254740993" = 2 ^ 53 + 1
  /\ minor (versionStringToVersion "2.9007199254740993-rc.4") = Int (2 ^ 53)
  /\ strict_eq (minor (versionStringToVersion "2.9007199254740993-rc.4"))
               (Int (decimal_value "9007199254740993")) = false.
Proof. evaluate. Qed.

(** C8, as the code has it. When the first character of a token that is
    not a decimal digit comes at a position above 0, [trimText] keeps the
    digits before it, and the field is the binary64 value nearest to the
    integer they write: that integer itself when it is at most [2^53]. *)
Theorem versionStringToVersion_digit_prefix
  (versionString : string) (i : nat) (token : string) :
  (i < 4)%nat ->
  nth_error (split "." versionString) i = Some token ->
  0 < search_non_digit token ->
  trimText token = substring0 (search_non_digit token) token
  /\ field i (versionStringToVersion versionString)
     = to_number
         (decimal_value (substring0 (search_non_digit token) token)) 0
  /\ (decimal_value (substring0 (search_non_digit token) token) <= 2 ^ 53 ->
      field i (versionStringToVersion versionString)
      = Int (decimal_value (substring0 (search_non_digit token) token))).
Proof.
  intros Hi Htoken Hsearch.
  destruct (trimText_prefix token Hsearch) as (Htrim & Hprefix & Hne).
  split; [exact Htrim|].
  assert (Hfield : field i (versionStringToVersion versionString)
                   = StringToNumber (trimText token)).
  { apply (field_of_token versionString i token Hi Htoken).
    destruct token; [discriminate Hsearch|reflexivity]. }
  rewrite Hfield, Htrim, Hprefix.
  pose proof (span_digits_all_digits token) as Hall.
  split.
  - now apply StringToNumber_digits_rounded.
  - intros Hsafe. apply StringToNumber_digits; [exact Hne|exact Hall|].
    now apply exact64_digits.
Qed.

(** The examples of C8: the minor of ["2.3-rc.4"] is read from ["3"], and
    a token ["3-beta"] gives 3. *)
Lemma versionStringToVersion_digit_prefix_witness :
  (trimText "3-rc" = "3"
   /\ minor (versionStringToVersion "2.3-rc.4") = Int 3)
  /\ (trimText "3-beta" = "3"
      /\ major (versionStringToVersion "3-beta") = Int 3).
Proof.
  split.
  - destruct (versionStringToVersion_digit_prefix "2.3-rc.4" 1 "3-rc")
      as (Htrim & _ & Hfield); [lia | reflexivity | reflexivity |].
    split; [exact Htrim | apply Hfield; vm_compute; discriminate].
  - destruct (versionStringToVersion_digit_prefix "3-beta" 0 "3-beta")
      as (Htrim & _ & Hfield); [lia | reflexivity | reflexivity |].
    split; [exact Htrim | apply Hfield; vm_compute; discriminate].
Defined.

(** C9. A token position that is absent from the split, or holds the empty
    string, gets the default of the position: major 0, minor 1, patch 0,
    build 1. *)
Theorem versionStringToVersion_defaults (versionString : string) (i : nat) :
  (i < 4)%nat ->
  nth_error (split "." versionString) i = None
  \/ nth_error (split "." versionString) i = Some "" ->
  field i (versionStringToVersion versionString) = Int (default_value i).
Proof.
  intros Hi Habsent. rewrite field_versionStringToVersion by assumption.
  assert (Hd : or_default (nth_error (split "." versionString) i)
                 (default_token i) = default_token i)
    by (destruct Habsent as [-> | ->]; reflexivity).
  rewrite Hd. destruct i as [|[|[|i]]]; reflexivity.
Qed.

(** The examples of C9: ["2.3"] has patch 0 and build 1, and every field of
    [""] is its default. *)
Lemma versionStringToVersion_defaults_witness :
  (patch (versionStringToVersion "2.3") = Int 0
   /\ build (versionStringToVersion "2.3") = Int 1)
  /\ (major (versionStringToVersion "") = Int 0
      /\ minor (versionStringToVersion "") = Int 1
      /\ patch (versionStringToVersion "") = Int 0
      /\ build (versionStringToVersion "") = Int 1).
Proof.
  split; [split | split; [|split; [|split]]].
  - apply (versionStringToVersion_defaults "2.3" 2); [lia | now left].
  - apply (versionStringToVersion_defaults "2.3" 3); [lia | now left].
  - apply (versionStringToVersion_defaults "" 0); [lia | now right].
  - apply (versionStringToVersion_defaults "" 1); [lia | now left].
  - apply (versionStringToVersion_defaults "" 2); [lia | now left].
  - apply (versionStringToVersion_defaults "" 3); [lia | now left].
Defined.

(** ** The testable properties of the specification, evaluated *)

Example parse_four_tokens :
  versionStringToVersion "2.3.4.5" = version_of 2 3 4 5.
Proof. reflexivity. Qed.

Example parse_two_tokens :
  versionStringToVersion "2.3" = version_of 2 3 0 1.
Proof. reflexivity. Qed.

Example parse_suffix :
  versionStringToVersion "2.3-rc.4" = version_of 2 3 4 1.
Proof. reflexivity. Qed.

Example parse_empty : versionStringToVersion "" = version_of 0 1 0 1.
Proof. reflexivity. Qed.

Example equals_ignores_build :
  versionEquals (Some (version_of 1 2 3 9)) (version_of 1 2 3 1)
  = Return true.
Proof. reflexivity. Qed.

Example encode_example :
  versionToVersionCode (version_of 1 2 3 4) = Int 1020304.
Proof. reflexivity. Qed.

(** ** More on the order of numbers *)

Section NumberOrder.

Lemma strict_eq_sym (x y : number) : strict_eq x y = strict_eq y x.
Proof.
  unfold strict_eq. rewrite (compare_antisym x y).
  now destruct (compare x y) as [[]|].
Qed.

Lemma strict_eq_trans (x y z : number) :
  strict_eq x y = true -> strict_eq y z = true -> strict_eq x z = true.
Proof.
  destruct x as [|[]|m1 e1], y as [|[]|m2 e2], z as [|[]|m3 e3];
    try solve [cbn; easy].
  unfold strict_eq.
  set (E := Z.min e1 (Z.min e2 e3)).
  rewrite (compare_Fin_at m1 e1 m2 e2 E), (compare_Fin_at m2 e2 m3 e3 E),
    (compare_Fin_at m1 e1 m3 e3 E) by lia.
  destruct (Z.compare_spec (scale m1 e1 E) (scale m2 e2 E)) as [H12| |];
    try discriminate.
  destruct (Z.compare_spec (scale m2 e2 E) (scale m3 e3 E)) as [H23| |];
    try discriminate.
  intros _ _. now rewrite H12, H23, Z.compare_refl.
Qed.

Lemma strict_eq_refl (x : number) : strict_eq x x = negb (is_NaN x).
Proof.
  destruct x as [|[]|m e]; try reflexivity.
  unfold strict_eq. cbn [compare is_NaN negb]. now rewrite Z.compare_refl.
Qed.

Lemma strict_eq_NaN_l (x y : number) :
  is_NaN x = true -> strict_eq x y = false.
Proof. now destruct x. Qed.

Lemma strict_eq_NaN_r (x y : number) :
  is_NaN y = true -> strict_eq x y = false.
Proof. now destruct x as [|[]|], y. Qed.

Lemma lt_irrefl (x : number) : lt x x = false.
Proof.
  destruct x as [|[]|m e]; try reflexivity.
  unfold lt. cbn [compare]. now rewrite Z.compare_refl.
Qed.

Lemma lt_NaN_l (x y : number) : is_NaN x = true -> lt x y = false.
Proof. now destruct x. Qed.

Lemma lt_NaN_r (x y : number) : is_NaN y = true -> lt x y = false.
Proof. now destruct x as [|[]|], y. Qed.

End NumberOrder.

(** ** The equality of semantic versions *)

(** X1. On two descriptors [versionEquals] does not depend on the order of
    its arguments. *)
Theorem versionEquals_symmetric (a b : Version) :
  versionEquals (Some a) b = versionEquals (Some b) a.
Proof.
  unfold versionEquals. cbn [deref bind].
  now rewrite (strict_eq_sym (major a)), (strict_eq_sym (minor a)),
    (strict_eq_sym (patch a)).
Qed.

(** X2. [versionEquals] is transitive: numbers written differently
    ([10] and [1e1]) count as the same field. *)
Theorem versionEquals_transitive (a b c : Version) :
  versionEquals (Some a) b = Return true ->
  versionEquals (Some b) c = Return true ->
  versionEquals (Some a) c = Return true.
Proof.
  unfold versionEquals. cbn [deref bind].
  intros [= Hab] [= Hbc]. f_equal.
  apply andb_true_iff in Hab. destruct Hab as [Hab Hpatch].
  apply andb_true_iff in Hab. destruct Hab as [Hmajor Hminor].
  apply andb_true_iff in Hbc. destruct Hbc as [Hbc Hpatch'].
  apply andb_true_iff in Hbc. destruct Hbc as [Hmajor' Hminor'].
  now rewrite (strict_eq_trans _ _ _ Hmajor Hmajor'),
    (strict_eq_trans _ _ _ Hminor Hminor'),
    (strict_eq_trans _ _ _ Hpatch Hpatch').
Qed.

Lemma versionEquals_transitive_witness :
  versionEquals (Some (versionStringToVersion "10.2.3.9"))
                (versionStringToVersion " 1e1.2.3") = Return true.
Proof.
  apply (versionEquals_transitive _ (version_of 10 2 3 4)); reflexivity.
Defined.

(** X3. A descriptor equals itself exactly when none of major, minor and
    patch is [NaN]; the build plays no part. *)
Theorem versionEquals_reflexive_iff (v : Version) :
  versionEquals (Some v) v
  = Return (negb (is_NaN (major v) || is_NaN (minor v) || is_NaN (patch v))).
Proof.
  unfold versionEquals. cbn [deref bind]. rewrite !strict_eq_refl.
  now rewrite !negb_orb.
Qed.

(** ** More on the build-increment decision *)

(** X4. Deciding a descriptor against itself returns it: no increment and
    no error, whatever the fields and the ceiling are. *)
Theorem updateVersionBuild_same (v : Version) (maxBuilds : option number) :
  updateVersionBuild (Some v) v maxBuilds = Return v.
Proof.
  rewrite updateVersionBuild_unfold, lt_irrefl.
  now rewrite andb_false_r.
Qed.

(** X5. A [NaN] in any field of current or of requested switches the
    increment and the ceiling off: requested is returned as it is. *)
Theorem updateVersionBuild_NaN
  (current requested : Version) (maxBuilds : option number) :
  has_NaN current || has_NaN requested = true ->
  updateVersionBuild (Some current) requested maxBuilds = Return requested.
Proof.
  intros H. rewrite updateVersionBuild_unfold.
  enough (Hoff : same_semantic_version current requested
                 && lt (build requested) (build current) = false)
    by now rewrite Hoff.
  unfold same_semantic_version, has_NaN in *.
  repeat (apply orb_true_iff in H; destruct H as [H|H]).
  - now rewrite (strict_eq_NaN_l _ _ H).
  - rewrite (strict_eq_NaN_l _ (minor requested) H).
    now rewrite andb_false_r.
  - rewrite (strict_eq_NaN_l _ (patch requested) H).
    now rewrite andb_false_r.
  - rewrite (lt_NaN_r _ _ H). now rewrite andb_false_r.
  - now rewrite (strict_eq_NaN_r _ _ H).
  - rewrite (strict_eq_NaN_r (minor current) _ H).
    now rewrite andb_false_r.
  - rewrite (strict_eq_NaN_r (patch current) _ H).
    now rewrite andb_false_r.
  - rewrite (lt_NaN_l _ _ H). now rewrite andb_false_r.
Qed.

Lemma updateVersionBuild_NaN_witness :
  updateVersionBuild (Some (versionStringToVersion "abc.2.3.99"))
    (versionStringToVersion "abc.2.3") None
  = Return (versionStringToVersion "abc.2.3").
Proof. apply updateVersionBuild_NaN. reflexivity. Defined.

(** X6. A returned descriptor is requested itself, or requested with the
    build [current.build + 1], the binary64 sum, which is then above the
    requested build and not at or above the ceiling. *)
Theorem updateVersionBuild_result
  (current requested next : Version) (maxBuilds : option number) :
  updateVersionBuild (Some current) requested maxBuilds = Return next ->
  next = requested
  \/ (next = with_build requested (add (build current) (Int 1))
      /\ lt (build requested) (build next) = true
      /\ ge (build next) (effective_maxBuilds maxBuilds) = false).
Proof.
  rewrite updateVersionBuild_unfold.
  destruct (same_semantic_version current requested); cbn [andb].
  - destruct (lt (build requested) (build current)) eqn:Hlower.
    + destruct (ge _ _) eqn:Hge; [discriminate|].
      intros [= <-]. right. cbn [build with_build].
      repeat split; [now apply lt_add_one | exact Hge].
    + intros [= <-]. now left.
  - intros [= <-]. now left.
Qed.

Lemma updateVersionBuild_result_witness :
  version_of 1 2 3 6 = version_of 1 2 3 1
  \/ (version_of 1 2 3 6
      = with_build (version_of 1 2 3 1)
          (add (build (version_of 1 2 3 5)) (Int 1))
      /\ lt (build (version_of 1 2 3 1)) (build (version_of 1 2 3 6)) = true
      /\ ge (build (version_of 1 2 3 6)) (effective_maxBuilds None) = false).
Proof.
  apply (updateVersionBuild_result (version_of 1 2 3 5)). reflexivity.
Defined.

(** X7. With a ceiling of at most 100 (the default), deciding between
    descriptors whose builds are integers in [0, 99] returns a build that
    is an integer in [0, 99]: the range on which the version code is
    injective is kept. *)
Theorem updateVersionBuild_keeps_range
  (current requested next : Version) (maxBuilds : option number)
  (n r M : Z) :
  build current = Int n -> build requested = Int r ->
  effective_maxBuilds maxBuilds = Int M ->
  0 <= n <= 99 -> 0 <= r <= 99 -> M <= 100 ->
  updateVersionBuild (Some current) requested maxBuilds = Return next ->
  major next = major requested /\ minor next = minor requested
  /\ patch next = patch requested
  /\ exists k, build next = Int k /\ 0 <= k <= 99.
Proof.
  intros Hn Hr HM Hnr Hrr HMr. rewrite updateVersionBuild_unfold.
  rewrite Hn, Hr, HM, lt_Int, add_Int, ge_Int by safe_integers.
  destruct (same_semantic_version current requested); cbn [andb].
  - destruct (Z.ltb_spec r n).
    + destruct (Z.leb_spec M (n + 1)); [discriminate|].
      intros [= <-]. cbn. repeat split. exists (n + 1). split; [reflexivity|lia].
    + intros [= <-]. repeat split. exists r. now split.
  - intros [= <-]. repeat split. exists r. now split.
Qed.

Lemma updateVersionBuild_keeps_range_witness :
  major (version_of 1 2 3 99) = major (version_of 1 2 3 1)
  /\ minor (version_of 1 2 3 99) = minor (version_of 1 2 3 1)
  /\ patch (version_of 1 2 3 99) = patch (version_of 1 2 3 1)
  /\ exists k, build (version_of 1 2 3 99) = Int k /\ 0 <= k <= 99.
Proof.
  apply (updateVersionBuild_keeps_range (version_of 1 2 3 98)
           (version_of 1 2 3 1) (version_of 1 2 3 99) None 98 1 100);
    try reflexivity; lia.
Defined.

(** ** More on digit strings and on splitting *)

Section TokenFacts.

Lemma span_digits_append (s : string) :
  fst (span_digits s) ++ snd (span_digits s) = s.
Proof.
  induction s as [|c s IH]; [reflexivity|].
  cbn [span_digits]. destruct (is_digit c); [|reflexivity].
  destruct (span_digits s) as [d t]. cbn in *. now rewrite IH.
Qed.

Lemma trimText_digits (s : string) :
  all_digits 10 s = true -> trimText s = s.
Proof.
  intros H. unfold trimText. rewrite search_non_digit_span.
  now rewrite (span_digits_all s H).
Qed.

(** [trimText] returns its argument or the digits it begins with. *)
Lemma trimText_cases (s : string) :
  trimText s = s
  \/ (trimText s = fst (span_digits s)
      /\ is_empty (fst (span_digits s)) = false).
Proof.
  destruct (Z.ltb_spec 0 (search_non_digit s)) as [H|H].
  - right. destruct (trimText_prefix s H) as (H1 & H2 & H3).
    split; [now rewrite H1|exact H3].
  - left. unfold trimText.
    destruct (Z.ltb_spec 0 (search_non_digit s)); [lia|reflexivity].
Qed.

(** A string that begins with a digit is trimmed to its digits. *)
Lemma trimText_leading_digit (c : ascii) (r : string) :
  is_digit c = true ->
  trimText (String c r) = fst (span_digits (String c r)).
Proof.
  intros Hc. unfold trimText. rewrite search_non_digit_span.
  pose proof (span_digits_append (String c r)) as Happ.
  pose proof (substring_span (String c r)) as Hsub.
  cbn [span_digits] in *. rewrite Hc in *.
  destruct (span_digits r) as [d t]. cbn [fst snd] in *.
  destruct t as [|c' t']; cbn [is_empty].
  - rewrite append_empty_r in Happ. now rewrite Happ.
  - destruct (Z.ltb_spec 0 (Z.of_nat (String.length (String c d))));
      [|cbn [String.length] in *; lia].
    unfold substring0. now rewrite Nat2Z.id.
Qed.

Lemma digits_no_dot (s : string) :
  all_digits 10 s = true -> contains "." s = false.
Proof.
  induction s as [|c s IH]; [reflexivity|].
  intros H. apply all_digits_is_digit in H. destruct H as [Hc Hs].
  cbn [contains]. now rewrite (digit_neq c "." Hc), (IH Hs).
Qed.

Lemma split_nonempty (sep : ascii) (s : string) : split sep s <> [].
Proof.
  destruct s as [|c s]; cbn; [discriminate|].
  destruct (Ascii.eqb c sep); [discriminate|].
  destruct (split sep s); discriminate.
Qed.

(** Splitting goes through a separator. *)
Lemma split_append (sep : ascii) (s t : string) :
  split sep (s ++ String sep t) = (split sep s ++ split sep t)%list.
Proof.
  induction s as [|c s IH].
  - cbn. now rewrite Ascii.eqb_refl.
  - cbn [append split]. destruct (Ascii.eqb c sep).
    + now rewrite IH.
    + rewrite IH. pose proof (split_nonempty sep s).
      destruct (split sep s); [contradiction|reflexivity].
Qed.

Lemma split_no_sep (sep : ascii) (s : string) :
  contains sep s = false -> split sep s = [s].
Proof.
  induction s as [|c s IH]; [reflexivity|].
  cbn [contains split]. intros H. apply orb_false_iff in H.
  destruct H as [Hc Hs]. now rewrite Hc, (IH Hs).
Qed.

(** The four fields of four non-empty strings of digits joined by dots. *)
Lemma versionStringToVersion_dotted (s1 s2 s3 s4 : string) :
  is_empty s1 = false -> all_digits 10 s1 = true ->
  is_empty s2 = false -> all_digits 10 s2 = true ->
  is_empty s3 = false -> all_digits 10 s3 = true ->
  is_empty s4 = false -> all_digits 10 s4 = true ->
  versionStringToVersion (s1 ++ "." ++ s2 ++ "." ++ s3 ++ "." ++ s4)
  = {| major := StringToNumber s1; minor := StringToNumber s2;
       patch := StringToNumber s3; build := StringToNumber s4 |}.
Proof.
  intros E1 D1 E2 D2 E3 D3 E4 D4. unfold versionStringToVersion.
  change ("." ++ s2 ++ "." ++ s3 ++ "." ++ s4)
    with (String "." (s2 ++ String "." (s3 ++ String "." s4))).
  rewrite !split_append.
  rewrite !split_no_sep by now apply digits_no_dot.
  cbn [List.app nth_error].
  destruct s1; [discriminate|]. destruct s2; [discriminate|].
  destruct s3; [discriminate|]. destruct s4; [discriminate|].
  cbn [or_default].
  now rewrite !trimText_digits by assumption.
Qed.

(** The same for the text of a descriptor of binary64 integers. *)
Lemma versionStringToVersion_digits_of (a b c d : Z) :
  0 <= a -> 0 <= b -> 0 <= c -> 0 <= d ->
  exact64 a 0 = true -> exact64 b 0 = true ->
  exact64 c 0 = true -> exact64 d 0 = true ->
  versionStringToVersion
    (digits_of a ++ "." ++ digits_of b ++ "." ++ digits_of c ++ "."
     ++ digits_of d)
  = version_of a b c d.
Proof.
  intros Ha Hb Hc Hd Xa Xb Xc Xd.
  rewrite versionStringToVersion_dotted
    by (apply digits_of_nonempty || (apply digits_of_all_digits; lia)).
  rewrite !StringToNumber_digits
    by (apply digits_of_nonempty || (apply digits_of_all_digits; lia)
        || (rewrite digits_of_value by lia; assumption)).
  now rewrite !digits_of_value by lia.
Qed.

(** The text written for a descriptor of integers below [2^53] is parsed
    back as the descriptor. *)
Lemma bundleVersion_parsed (a b c d : Z) :
  0 <= a < 2 ^ 53 -> 0 <= b < 2 ^ 53 ->
  0 <= c < 2 ^ 53 -> 0 <= d < 2 ^ 53 ->
  versionStringToVersion (bundleVersion (version_of a b c d))
  = version_of a b c d.
Proof.
  intros Ha Hb Hc Hd. unfold bundleVersion, version_of.
  cbn [major minor patch build].
  rewrite !toString_Int by lia.
  apply versionStringToVersion_digits_of;
    (lia || (apply exact64_Int; lia)).
Qed.

End TokenFacts.

(** ** More on the parser *)

(** X8. [trimText] returns a prefix of its argument, and an empty one only
    for the empty string: the text handed to the numeric coercion is never
    emptied. *)
Theorem trimText_prefix_nonempty (s : string) :
  (exists rest, s = trimText s ++ rest)
  /\ is_empty (trimText s) = is_empty s.
Proof.
  destruct (trimText_cases s) as [H|[H Hne]]; rewrite H.
  - split; [|reflexivity]. exists "". now rewrite append_empty_r.
  - pose proof (span_digits_append s) as Happ. split.
    + exists (snd (span_digits s)). now rewrite Happ.
    + rewrite Hne. rewrite <- Happ, is_empty_append, Hne. reflexivity.
Qed.

(** X9. [trimText] is idempotent. *)
Theorem trimText_idempotent (s : string) :
  trimText (trimText s) = trimText s.
Proof.
  destruct (trimText_cases s) as [H|[H _]]; rewrite H.
  - exact H.
  - apply trimText_digits, span_digits_all_digits.
Qed.

(** X10. A token that begins with a decimal digit never gives [NaN] or a
    negative number: its field is the binary64 value nearest to the integer
    written by its longest prefix of digits, and that integer itself when
    it is at most [2^53]. What follows the digits is dropped before the
    coercion, so a hexadecimal prefix or an exponent is not read (["0x10"]
    gives 0 and ["1e3"] gives 1). *)
Theorem versionStringToVersion_leading_digit
  (versionString : string) (i : nat) (c : ascii) (rest : string) :
  (i < 4)%nat ->
  nth_error (split "." versionString) i = Some (String c rest) ->
  is_digit c = true ->
  field i (versionStringToVersion versionString)
  = to_number (decimal_value (fst (span_digits (String c rest)))) 0
  /\ ge (field i (versionStringToVersion versionString)) (Int 0) = true
  /\ (decimal_value (fst (span_digits (String c rest))) <= 2 ^ 53 ->
      field i (versionStringToVersion versionString)
      = Int (decimal_value (fst (span_digits (String c rest))))).
Proof.
  intros Hi Htoken Hc.
  pose proof (span_digits_all_digits (String c rest)) as Hall.
  assert (Hne : is_empty (fst (span_digits (String c rest))) = false)
    by (cbn [span_digits]; rewrite Hc; now destruct (span_digits rest)).
  rewrite (field_of_token versionString i _ Hi Htoken eq_refl).
  rewrite (trimText_leading_digit c rest Hc).
  rewrite (StringToNumber_digits_rounded _ Hne Hall).
  split; [reflexivity|]. split.
  - now apply to_number_nonneg, decimal_value_bound.
  - intros Hsafe. now apply to_number_exact, exact64_digits.
Qed.

Lemma versionStringToVersion_leading_digit_witness :
  major (versionStringToVersion "0x10.1e3") = Int 0
  /\ minor (versionStringToVersion "0x10.1e3") = Int 1.
Proof.
  split.
  - destruct (versionStringToVersion_leading_digit "0x10.1e3" 0 "0" "x10")
      as (_ & _ & Hfield); [lia | reflexivity | reflexivity |].
    apply Hfield. vm_compute. discriminate.
  - destruct (versionStringToVersion_leading_digit "0x10.1e3" 1 "1" "e3")
      as (_ & _ & Hfield); [lia | reflexivity | reflexivity |].
    apply Hfield. vm_compute. discriminate.
Defined.

(** X11. Only the first four tokens are read: whatever follows a further
    dot changes nothing. *)
Theorem versionStringToVersion_ignores_fifth (versionString more : string) :
  (4 <= List.length (split "." versionString))%nat ->
  versionStringToVersion (versionString ++ "." ++ more)
  = versionStringToVersion versionString.
Proof.
  intros Hlen. unfold versionStringToVersion.
  change ("." ++ more) with (String "." more).
  rewrite split_append.
  now rewrite !nth_error_app1 by lia.
Qed.

Lemma versionStringToVersion_ignores_fifth_witness :
  versionStringToVersion ("1.2.3.4" ++ "." ++ "5.6")
  = versionStringToVersion "1.2.3.4".
Proof.
  apply versionStringToVersion_ignores_fifth. cbn. lia.
Defined.

(** X12. Round trip through the file: a descriptor whose fields are
    numbers of the program (binary64 values) that are non-negative integers
    below [10^21], written as [major.minor.patch.build] the way the plist
    and the gradle file receive it, is parsed back as itself. *)
Theorem versionStringToVersion_bundleVersion (a b c d : Z) :
  0 <= a < 10 ^ 21 -> 0 <= b < 10 ^ 21 ->
  0 <= c < 10 ^ 21 -> 0 <= d < 10 ^ 21 ->
  binary64_fields (version_of a b c d) = true ->
  versionStringToVersion (bundleVersion (version_of a b c d))
  = version_of a b c d.
Proof.
  intros Ha Hb Hc Hd Hfields. unfold bundleVersion.
  unfold binary64_fields, version_of in *.
  cbn [major minor patch build is_binary64 Int] in *.
  apply andb_true_iff in Hfields. destruct Hfields as [Hfields Xd].
  apply andb_true_iff in Hfields. destruct Hfields as [Hfields Xc].
  apply andb_true_iff in Hfields. destruct Hfields as [Xa Xb].
  fold (Int a) (Int b) (Int c) (Int d).
  destruct (toString_Int_reads a Ha Xa) as (Ea & Da & Ra).
  destruct (toString_Int_reads b Hb Xb) as (Eb & Db & Rb).
  destruct (toString_Int_reads c Hc Xc) as (Ec & Dc & Rc).
  destruct (toString_Int_reads d Hd Xd) as (Ed & Dd & Rd).
  rewrite versionStringToVersion_dotted by assumption.
  now rewrite Ra, Rb, Rc, Rd.
Qed.

Lemma versionStringToVersion_bundleVersion_witness :
  versionStringToVersion (bundleVersion (version_of 1 20 300 4))
  = version_of 1 20 300 4.
Proof.
  apply versionStringToVersion_bundleVersion;
    [lia | lia | lia | lia | vm_compute; reflexivity].
Defined.

(** ** More on the version code *)

Section CodeFacts.

(** With three fields in [0, 99] and a build of three digits the build
    takes three places. *)
Lemma pad2_length_three (z : Z) :
  100 <= z <= 999 -> String.length (pad2 (digits_of z)) = 3%nat.
Proof.
  intros Hz. unfold pad2. rewrite length_append, length_zeros.
  pose proof (digits_of_length z 3 ltac:(lia) ltac:(cbn; lia)) as Hle.
  pose proof (decimal_value_bound (digits_of z)
                (digits_of_all_digits z ltac:(lia))) as Hb.
  rewrite digits_of_value in Hb by lia.
  assert (Hge : (3 <= String.length (digits_of z))%nat).
  { destruct (String.length (digits_of z)) as [|[|[|k]]];
      cbn in Hb; lia. }
  lia.
Qed.

Lemma spec_encode_build3 (a b c z : Z) :
  0 <= a <= 99 -> 0 <= b <= 99 -> 0 <= c <= 99 -> 100 <= z <= 999 ->
  spec_encode a b c z = a * 10000000 + b * 100000 + c * 1000 + z.
Proof.
  intros Ha Hb Hc Hz. unfold spec_encode, padded_text.
  rewrite !decimal_value_app, !length_append, !pad2_length_small,
    pad2_length_three by assumption.
  rewrite !pad2_value, !digits_of_value by lia.
  cbn. lia.
Qed.

Lemma contains_append (c : ascii) (s t : string) :
  contains c (s ++ t) = contains c s || contains c t.
Proof.
  induction s as [|c' s IH]; cbn; [reflexivity|].
  now rewrite IH, orb_assoc.
Qed.

Lemma contains_padStart (c : ascii) (s fill : string) (n : nat) :
  contains c s = true -> contains c (padStart s n fill) = true.
Proof.
  intros H. unfold padStart.
  destruct (n <=? String.length s)%nat; [exact H|].
  destruct (is_empty fill); [exact H|].
  rewrite contains_append, H. apply orb_true_r.
Qed.

Lemma contains_nonempty (c : ascii) (s : string) :
  contains c s = true -> is_empty s = false.
Proof. now destruct s. Qed.

(** The capital [N] is no digit of any radix, no white space and no sign. *)
Lemma contains_N_all_digits (radix : Z) (s : string) :
  radix <= 16 -> contains "N" s = true -> all_digits radix s = false.
Proof.
  intros Hr. induction s as [|c s IH]; [discriminate|].
  cbn [contains all_digits]. intros H. apply orb_true_iff in H.
  destruct H as [H|H].
  - apply Ascii.eqb_eq in H. subst c.
    replace (digit_value "N" <? radix) with false; [reflexivity|].
    symmetry. apply Z.ltb_ge. cbn. lia.
  - rewrite (IH H). apply andb_false_r.
Qed.

Lemma contains_N_span (s : string) :
  contains "N" s = true -> contains "N" (snd (span_digits s)) = true.
Proof.
  induction s as [|c s IH]; [discriminate|].
  intros H. cbn [span_digits]. destruct (is_digit c) eqn:Hc; [|exact H].
  cbn [contains] in H. rewrite (digit_neq c "N" Hc) in H by reflexivity.
  cbn [orb] in H. specialize (IH H).
  now destruct (span_digits s).
Qed.

Lemma contains_N_trim_start (s : string) :
  contains "N" s = true -> contains "N" (trim_start s) = true.
Proof.
  induction s as [|c s IH]; [discriminate|].
  intros H. cbn [trim_start]. destruct (is_whitespace c) eqn:Hc; [|exact H].
  apply IH. cbn [contains] in H. apply orb_true_iff in H.
  destruct H as [H|H]; [|exact H].
  apply Ascii.eqb_eq in H. subst c. discriminate.
Qed.

Lemma contains_N_trim_end (s : string) :
  contains "N" s = true -> contains "N" (trim_end s) = true.
Proof.
  induction s as [|c s IH]; [discriminate|].
  cbn [contains trim_end]. intros H. apply orb_true_iff in H.
  destruct H as [H|H].
  - apply Ascii.eqb_eq in H. subst c. reflexivity.
  - specialize (IH H). rewrite (contains_nonempty _ _ IH), andb_false_r.
    cbn [contains]. rewrite IH. apply orb_true_r.
Qed.

Lemma contains_N_split_sign (s : string) :
  contains "N" s = true -> contains "N" (snd (split_sign s)) = true.
Proof.
  destruct s as [|c s]; [discriminate|]. unfold split_sign.
  destruct (Ascii.eqb_spec c "+") as [->|_]; [intros H; exact H|].
  destruct (Ascii.eqb_spec c "-") as [->|_]; [intros H; exact H|].
  intros H; exact H.
Qed.

Lemma parse_exponent_N (s : string) :
  contains "N" s = true -> parse_exponent s = None.
Proof.
  destruct s as [|c s]; [discriminate|]. unfold parse_exponent.
  destruct (Ascii.eqb c "e" || Ascii.eqb c "E") eqn:Hc; [|reflexivity].
  intros H. cbn [contains] in H.
  assert (Hs : contains "N" s = true).
  { apply orb_true_iff in Hc. apply orb_true_iff in H.
    destruct H as [H|H]; [|exact H]. apply Ascii.eqb_eq in H. subst c.
    destruct Hc; discriminate. }
  pose proof (contains_N_span _ (contains_N_split_sign s Hs)) as Hrest.
  destruct (split_sign s) as [negative r']. cbn [snd] in Hrest.
  destruct (span_digits r') as [d rest]. cbn [snd] in Hrest.
  rewrite (contains_nonempty _ _ Hrest). now rewrite andb_false_r.
Qed.

Lemma parse_unsigned_decimal_N (s : string) :
  contains "N" s = true -> parse_unsigned_decimal s = None.
Proof.
  intros H. unfold parse_unsigned_decimal.
  pose proof (contains_N_span s H) as Hr1.
  destruct (span_digits s) as [ip r1]. cbn [snd] in Hr1.
  destruct (starts_with "." r1) eqn:Hdot.
  - assert (Htail : contains "N" (tail r1) = true).
    { destruct r1 as [|c r]; [discriminate|]. cbn in Hdot.
      apply Ascii.eqb_eq in Hdot. subst c. exact Hr1. }
    pose proof (contains_N_span _ Htail) as Hr3.
    destruct (span_digits (tail r1)) as [fp r3]. cbn [snd] in Hr3.
    rewrite (parse_exponent_N r3 Hr3).
    now destruct (is_empty ip && is_empty fp).
  - rewrite (parse_exponent_N r1 Hr1). now destruct (is_empty ip).
Qed.

(** Text that holds a capital [N] is no numeric literal. *)
Lemma StringToNumber_N (s : string) :
  contains "N" s = true -> StringToNumber s = NaN.
Proof.
  intros H. unfold StringToNumber, trim.
  pose proof (contains_N_trim_end _ (contains_N_trim_start s H)) as Ht.
  set (t := trim_end (trim_start s)) in *.
  rewrite (contains_nonempty _ _ Ht).
  assert (Hnd : parse_non_decimal t = None).
  { unfold parse_non_decimal. destruct t as [|z [|p r]]; try reflexivity.
    destruct (radix_of_prefix p) as [radix|] eqn:Hp; [|reflexivity].
    destruct (Ascii.eqb_spec z "0") as [->|_]; [|reflexivity].
    cbn [contains] in Ht.
    apply orb_true_iff in Ht. destruct Ht as [Ht|Ht]; [discriminate Ht|].
    assert (Hradix : radix <= 16).
    { unfold radix_of_prefix in Hp.
      repeat (destruct (_ || _) in Hp; [injection Hp as <-; lia|]).
      discriminate. }
    apply orb_true_iff in Ht. destruct Ht as [Ht|Ht].
    - apply Ascii.eqb_eq in Ht. subst p. discriminate.
    - rewrite (contains_N_all_digits radix r Hradix Ht).
      now rewrite andb_false_r. }
  rewrite Hnd. unfold parse_decimal_literal.
  pose proof (contains_N_split_sign t Ht) as Hu.
  destruct (split_sign t) as [negative u]. cbn [snd] in Hu.
  destruct (String.eqb_spec u "Infinity") as [->|_]; [discriminate|].
  now rewrite (parse_unsigned_decimal_N u Hu).
Qed.

End CodeFacts.

(** X13. With every field an integer in [0, 99] the version code is the
    base-100 numeral [major minor patch build]; it is at most 99999999 and
    so fits a signed 32-bit integer. *)
Theorem versionToVersionCode_base100 (a b c d : Z) :
  0 <= a <= 99 -> 0 <= b <= 99 -> 0 <= c <= 99 -> 0 <= d <= 99 ->
  versionToVersionCode (version_of a b c d)
  = Int (a * 1000000 + b * 10000 + c * 100 + d)
  /\ 0 <= a * 1000000 + b * 10000 + c * 100 + d <= 99999999
  /\ 99999999 < 2 ^ 31.
Proof.
  intros Ha Hb Hc Hd. split; [|split; [lia|reflexivity]].
  now apply versionToVersionCode_small.
Qed.

Lemma versionToVersionCode_base100_witness :
  versionToVersionCode (version_of 12 3 45 6) = Int (12034506)
  /\ 0 <= 12034506 <= 99999999
  /\ 99999999 < 2 ^ 31.
Proof. apply (versionToVersionCode_base100 12 3 45 6); lia. Defined.

(** X14. Beyond 99 the code is ambiguous: a descriptor with a major of one
    digit, minor and patch in [0, 99] and a build of three digits has the
    code of another descriptor, whose four fields are in [0, 99]. *)
Theorem versionToVersionCode_collision (a b c z : Z) :
  0 <= a <= 9 -> 0 <= b <= 99 -> 0 <= c <= 99 -> 100 <= z <= 999 ->
  exists a' b' c' d',
    0 <= a' <= 99 /\ 0 <= b' <= 99 /\ 0 <= c' <= 99 /\ 0 <= d' <= 99
    /\ d' < z
    /\ versionToVersionCode (version_of a b c z)
       = versionToVersionCode (version_of a' b' c' d').
Proof.
  intros Ha Hb Hc Hz.
  set (n := (a * 10000 + b * 100 + c) * 10 + z / 100).
  exists (n / 10000), (n / 100 mod 100), (n mod 100), (z mod 100).
  assert (Hn : 0 <= n <= 999999)
    by (subst n; Z.div_mod_to_equations; lia).
  assert (Ha' : 0 <= n / 10000 <= 99) by (Z.div_mod_to_equations; lia).
  assert (Hb' : 0 <= n / 100 mod 100 <= 99)
    by (Z.div_mod_to_equations; lia).
  assert (Hc' : 0 <= n mod 100 <= 99) by (Z.div_mod_to_equations; lia).
  assert (Hd' : 0 <= z mod 100 <= 99) by (Z.div_mod_to_equations; lia).
  repeat (split; [assumption|]). split; [lia|].
  rewrite (versionToVersionCode_small (n / 10000)) by assumption.
  rewrite versionToVersionCode_exact
    by (safe_integers || (rewrite spec_encode_build3 by lia;
                          apply exact64_Int; safe_integers)).
  rewrite spec_encode_build3 by lia.
  f_equal. subst n. Z.div_mod_to_equations. lia.
Qed.

Lemma versionToVersionCode_collision_witness :
  exists a' b' c' d',
    0 <= a' <= 99 /\ 0 <= b' <= 99 /\ 0 <= c' <= 99 /\ 0 <= d' <= 99
    /\ d' < 100
    /\ versionToVersionCode (version_of 1 2 3 100)
       = versionToVersionCode (version_of a' b' c' d').
Proof. apply (versionToVersionCode_collision 1 2 3 100); lia. Defined.

(** X15. A [NaN] in any field makes the version code [NaN], whatever the
    other fields are. *)
Theorem versionToVersionCode_NaN (version : Version) :
  has_NaN version = true -> versionToVersionCode version = NaN.
Proof.
  intros H. unfold versionToVersionCode. apply StringToNumber_N.
  rewrite !contains_append.
  assert (Hpad : forall x, is_NaN x = true ->
            contains "N" (padStart (toString x) 2 (toString (Int 0))) = true).
  { intros x Hx. apply contains_padStart. now destruct x. }
  unfold has_NaN in H.
  repeat (apply orb_true_iff in H; destruct H as [H|H]);
    rewrite (Hpad _ H); now rewrite ?orb_true_r.
Qed.

Lemma versionToVersionCode_NaN_witness :
  versionToVersionCode (versionStringToVersion "1.x.3") = NaN.
Proof. apply versionToVersionCode_NaN. reflexivity. Defined.

(** ** The command: one run on a platform file *)

(** X16. Running the command again with a version string that parses to
    [a.b.c] and the default build 1, over a plist whose [CFBundleVersion]
    is [a.b.c.n], all four integers below [2^53]: a build of 0 or 1 is
    written as 1 (the counter does not start by itself), a build from 2 to
    98 is written as [n + 1], and from 99 on the run stops on the build
    limit error. *)
Theorem updateIOSApplicationVersion_rerun
  (versionString : string) (a b c n : Z) :
  0 <= a < 2 ^ 53 -> 0 <= b < 2 ^ 53 -> 0 <= c < 2 ^ 53 ->
  0 <= n < 2 ^ 53 ->
  versionStringToVersion versionString = version_of a b c 1 ->
  updateIOSApplicationVersion
    (getIOSVersionInfo (Some (bundleVersion (version_of a b c n))))
    versionString
  = if n <=? 1 then Return (bundleVersion (version_of a b c 1))
    else if n <? 99 then Return (bundleVersion (version_of a b c (n + 1)))
    else Throw (Error build_limit_message).
Proof.
  intros Ha Hb Hc Hn Hparse.
  unfold updateIOSApplicationVersion, getIOSVersionInfo.
  rewrite bundleVersion_parsed, Hparse, updateVersionBuild_unfold
    by assumption.
  unfold same_semantic_version, version_of, effective_maxBuilds.
  cbn [major minor patch build].
  rewrite !strict_eq_Int, !Z.eqb_refl, lt_Int, add_Int_nonneg, ge_Int
    by safe_integers.
  cbn [andb].
  destruct (Z.leb_spec n 1), (Z.ltb_spec 1 n); try lia; [reflexivity|].
  destruct (Z.ltb_spec n 99), (Z.leb_spec 100 (n + 1)); try lia; reflexivity.
Qed.

Lemma updateIOSApplicationVersion_rerun_witness :
  updateIOSApplicationVersion (getIOSVersionInfo (Some "1.2.3.5")) "1.2.3"
    = Return "1.2.3.6"
  /\ updateIOSApplicationVersion (getIOSVersionInfo (Some "1.2.3.1")) "1.2.3"
    = Return "1.2.3.1"
  /\ updateIOSApplicationVersion (getIOSVersionInfo (Some "1.2.3.99")) "1.2.3"
    = Throw (Error build_limit_message).
Proof.
  split; [|split].
  - apply (updateIOSApplicationVersion_rerun "1.2.3" 1 2 3 5);
      [safe_integers | safe_integers | safe_integers | safe_integers
      | reflexivity].
  - apply (updateIOSApplicationVersion_rerun "1.2.3" 1 2 3 1);
      [safe_integers | safe_integers | safe_integers | safe_integers
      | reflexivity].
  - apply (updateIOSApplicationVersion_rerun "1.2.3" 1 2 3 99);
      [safe_integers | safe_integers | safe_integers | safe_integers
      | reflexivity].
Defined.

(** X17. On Android, when the build is incremented the version code grows
    by exactly one: with fields in [0, 99], a version string that parses to
    [a.b.c] with a build [r] below the current build [n], and [n] at most
    98, the version name written is [a.b.c.(n+1)] and the version code is
    the current code plus one. *)
Theorem updateAndroidApplicationVersion_increment
  (versionString : string) (a b c n r : Z) :
  0 <= a <= 99 -> 0 <= b <= 99 -> 0 <= c <= 99 ->
  0 <= r < n -> n <= 98 ->
  versionStringToVersion versionString = version_of a b c r ->
  updateAndroidApplicationVersion (Some (version_of a b c n)) versionString
  = Return (bundleVersion (version_of a b c (n + 1)),
            add (versionToVersionCode (version_of a b c n)) (Int 1))
  /\ lt (versionToVersionCode (version_of a b c n))
        (versionToVersionCode (version_of a b c (n + 1))) = true.
Proof.
  intros Ha Hb Hc Hr Hn Hparse.
  assert (Hnext : versionToVersionCode (version_of a b c (n + 1))
                  = add (versionToVersionCode (version_of a b c n)) (Int 1)).
  { rewrite !versionToVersionCode_small by lia.
    rewrite add_Int by safe_integers. f_equal. lia. }
  split.
  - unfold updateAndroidApplicationVersion.
    rewrite Hparse, updateVersionBuild_unfold.
    unfold same_semantic_version, version_of, effective_maxBuilds.
    cbn [major minor patch build].
    rewrite !strict_eq_Int, !Z.eqb_refl, lt_Int, add_Int, ge_Int
      by safe_integers.
    cbn [andb].
    destruct (Z.ltb_spec r n); [|lia].
    destruct (Z.leb_spec 100 (n + 1)); [lia|].
    cbn [bind]. unfold version_of in Hnext. now rewrite <- Hnext.
  - rewrite !versionToVersionCode_small by lia. rewrite lt_Int.
    apply Z.ltb_lt. lia.
Qed.

Lemma updateAndroidApplicationVersion_increment_witness :
  updateAndroidApplicationVersion (Some (version_of 1 2 3 5)) "1.2.3"
    = Return ("1.2.3.6", Int 1020306)
  /\ lt (versionToVersionCode (version_of 1 2 3 5))
        (versionToVersionCode (version_of 1 2 3 (5 + 1))) = true.
Proof.
  apply (updateAndroidApplicationVersion_increment "1.2.3" 1 2 3 5 1);
    [lia | lia | lia | lia | lia | reflexivity].
Defined.

(** X18. A bump of the semantic version always raises the Android version
    code, although the build starts again from the requested one: with
    fields in [0, 99] and [(a', b', c')] above [(a, b, c)] in the
    lexicographic order, the requested descriptor is written as it is and
    its code is above the current one, whatever the two builds are. *)
Theorem updateAndroidApplicationVersion_bump
  (versionString : string) (a b c n a' b' c' r : Z) :
  0 <= a <= 99 -> 0 <= b <= 99 -> 0 <= c <= 99 -> 0 <= n <= 99 ->
  0 <= a' <= 99 -> 0 <= b' <= 99 -> 0 <= c' <= 99 -> 0 <= r <= 99 ->
  a < a' \/ (a = a' /\ (b < b' \/ (b = b' /\ c < c'))) ->
  versionStringToVersion versionString = version_of a' b' c' r ->
  updateAndroidApplicationVersion (Some (version_of a b c n)) versionString
  = Return (bundleVersion (version_of a' b' c' r),
            versionToVersionCode (version_of a' b' c' r))
  /\ lt (versionToVersionCode (version_of a b c n))
        (versionToVersionCode (version_of a' b' c' r)) = true.
Proof.
  intros Ha Hb Hc Hn Ha' Hb' Hc' Hr Hbump Hparse. split.
  - unfold updateAndroidApplicationVersion.
    rewrite Hparse, updateVersionBuild_unfold.
    assert (Hdiffer : same_semantic_version (version_of a b c n)
                        (version_of a' b' c' r) = false).
    { unfold same_semantic_version, version_of.
      cbn [major minor patch build]. rewrite !strict_eq_Int.
      destruct (Z.eqb_spec a a'), (Z.eqb_spec b b'), (Z.eqb_spec c c');
        try reflexivity; lia. }
    now rewrite Hdiffer.
  - rewrite !versionToVersionCode_small by lia. rewrite lt_Int.
    apply Z.ltb_lt. lia.
Qed.

Lemma updateAndroidApplicationVersion_bump_witness :
  updateAndroidApplicationVersion (Some (version_of 1 2 3 57)) "1.3"
    = Return ("1.3.0.1", Int 1030001)
  /\ lt (versionToVersionCode (version_of 1 2 3 57))
        (versionToVersionCode (version_of 1 3 0 1)) = true.
Proof.
  apply (updateAndroidApplicationVersion_bump "1.3" 1 2 3 57 1 3 0 1);
    [lia | lia | lia | lia | lia | lia | lia | lia | lia | reflexivity].
Defined.

Section Reruns.

Variables (versionString : string) (a b c : Z).
Hypothesis range_a : 0 <= a < 2 ^ 53.
Hypothesis range_b : 0 <= b < 2 ^ 53.
Hypothesis range_c : 0 <= c < 2 ^ 53.
Hypothesis requested :
  versionStringToVersion versionString = version_of a b c 1.

(** One run over a build from 2 to 99. *)
Lemma rerunIOS_step (n : Z) :
  2 <= n <= 99 ->
  updateIOSApplicationVersion
    (getIOSVersionInfo (Some (bundleVersion (version_of a b c n))))
    versionString
  = if n <=? 98 then Return (bundleVersion (version_of a b c (n + 1)))
    else Throw (Error build_limit_message).
Proof.
  intros Hn.
  unfold updateIOSApplicationVersion, getIOSVersionInfo.
  rewrite bundleVersion_parsed, requested, updateVersionBuild_unfold
    by safe_integers.
  unfold same_semantic_version, version_of, effective_maxBuilds.
  cbn [major minor patch build].
  rewrite !strict_eq_Int, !Z.eqb_refl, lt_Int, add_Int, ge_Int
    by safe_integers.
  cbn [andb].
  destruct (Z.ltb_spec 1 n); [|lia].
  destruct (Z.leb_spec n 98), (Z.leb_spec 100 (n + 1)); try lia; reflexivity.
Qed.

End Reruns.

(** X19. Repeated runs count the builds up to 99 and then stop: with a
    version string that parses to [a.b.c], integers below [2^53], and the
    default build 1, [k] runs in a row over a plist at [a.b.c.n], [n] from
    2 to 99, leave [a.b.c.(n+k)] when [n + k] is at most 99, and throw the
    build limit error otherwise. *)
Theorem rerunIOS_counts (versionString : string) (a b c n : Z) (k : nat) :
  0 <= a < 2 ^ 53 -> 0 <= b < 2 ^ 53 -> 0 <= c < 2 ^ 53 ->
  versionStringToVersion versionString = version_of a b c 1 ->
  2 <= n <= 99 ->
  rerunIOS k versionString (bundleVersion (version_of a b c n))
  = if n + Z.of_nat k <=? 99
    then Return (bundleVersion (version_of a b c (n + Z.of_nat k)))
    else Throw (Error build_limit_message).
Proof.
  intros Ha Hb Hc Hparse. revert n.
  induction k as [|k IH]; intros n Hn.
  - cbn [rerunIOS]. rewrite Z.add_0_r.
    destruct (Z.leb_spec n 99); [reflexivity|lia].
  - cbn [rerunIOS].
    rewrite (rerunIOS_step versionString a b c Ha Hb Hc Hparse n Hn).
    rewrite Nat2Z.inj_succ.
    destruct (Z.leb_spec n 98) as [Hlow|Hhigh]; cbn [bind].
    + rewrite IH by lia.
      replace (n + 1 + Z.of_nat k) with (n + Z.succ (Z.of_nat k)) by lia.
      reflexivity.
    + destruct (Z.leb_spec (n + Z.succ (Z.of_nat k)) 99); [lia|reflexivity].
Qed.

Lemma rerunIOS_counts_witness :
  rerunIOS 3 "1.2.3" "1.2.3.5" = Return "1.2.3.8"
  /\ rerunIOS 3 "1.2.3" "1.2.3.97"
     = Throw (Error build_limit_message).
Proof.
  split.
  - apply (rerunIOS_counts "1.2.3" 1 2 3 5 3);
      [safe_integers | safe_integers | safe_integers | reflexivity | lia].
  - apply (rerunIOS_counts "1.2.3" 1 2 3 97 3);
      [safe_integers | safe_integers | safe_integers | reflexivity | lia].
Defined.
